(** * ExoticBalance: the interrupt rebalancer of kernel/irq/exoticbalance

    A shallow embedding of [exoticbalance.c].  Every C [int] and
    [unsigned int] is a [Z] with its 32-bit wrap-around written out, the two
    counter arrays are lists indexed by CPU id, and the host kernel (interrupt
    statistics, descriptors, cpufreq, thermal, idle state) is a record of
    oracles that one tick observes as a snapshot. *)

From stdpp Require Import base numbers option list list_numbers strings gmap.

Local Open Scope Z_scope.

(** ** Machine integers *)

Definition UINT_MAX : Z := 4294967295.

(** Conversion to [unsigned int]: reduction modulo 2^32. *)
Definition u32 (x : Z) : Z := x `mod` 4294967296.

(** Conversion to [int]: the representative in [-2^31, 2^31). *)
Definition s32 (x : Z) : Z := (x + 2147483648) `mod` 4294967296 - 2147483648.

(** ** Constants of the module *)

Definition LIGHT_INTERVAL_MS : Z := 5000.
Definition HEAVY_INTERVAL_MS : Z := 30000.
Definition MIN_DELTA_IRQS_BASE : Z := 800.
Definition MAX_CPU_TEMP_THRESHOLD : Z := 70.
Definition MAX_IRQ_MIGRATE_PER_TICK : Z := 5.
Definition ENOMEM : Z := 12.

(** ** The host kernel as seen by the module *)

(** [struct irqaction]: only the [name] field is read; [None] is a null
    pointer. *)
Record irqaction := { name : option string }.

(** [struct irq_desc]: only the [action] field is read. *)
Record irq_desc := { action : option irqaction }.

(** [struct cpufreq_policy]: only [cpuinfo.max_freq] (kHz) is read. *)
Record cpufreq_policy := { max_freq : Z }.

(** [struct thermal_zone_device]: [get_temp] is what [tz->ops->get_temp]
    stores through its output pointer, [None] when it stores nothing. *)
Record thermal_zone_device := { get_temp : option Z }.

Record host := {
  nr_irqs : Z;
  nr_cpu_ids : Z;
  (** membership in [cpu_online_mask] *)
  cpu_online : Z → bool;
  kstat_irqs_cpu : Z → Z → Z;
  irq_to_desc : Z → option irq_desc;
  irq_can_set_affinity : Z → bool;
  (** [cpuidle_cpu_in_idle] is tested with [#if defined]: [None] when the
      macro is not defined. *)
  cpuidle_cpu_in_idle : option (Z → bool);
  (** [IS_ENABLED(CONFIG_THERMAL)] *)
  config_thermal : bool;
  (** [None] stands for an [IS_ERR] result *)
  thermal_zone_get_zone_by_name : string → option thermal_zone_device;
  (** [None] is a null policy *)
  cpufreq_cpu_get : Z → option cpufreq_policy
}.

(** [for_each_online_cpu]: the online CPU ids below [nr_cpu_ids], ascending. *)
Definition online_cpus (h : host) : list Z :=
  filter (λ c, Is_true (cpu_online h c)) (seqZ 0 (nr_cpu_ids h)).

(** [num_online_cpus()], an [unsigned int] in <linux/cpumask.h>. *)
Definition num_online_cpus (h : host) : Z := Z.of_nat (length (online_cpus h)).

Definition cpu_is_idle_wrap (h : host) (cpu : Z) : bool :=
  match cpuidle_cpu_in_idle h with
  | Some in_idle => in_idle cpu
  | None => false
  end.

(** ** Blacklist *)

Definition irq_name_blacklist : list string :=
  [ "mdss"; "sde"; "dsi"; "kgsl"; "adreno"; "msm_gpu";
    "input"; "touch"; "synaptics"; "fts"; "goodix";
    "ufs"; "ufshcd"; "qcom-ufshcd"; "sdc";
    "wlan"; "wifi"; "rmnet"; "ipa"; "qcom,sps"; "bam"; "modem"; "qrtr";
    "pmic"; "smb"; "bms"; "timer"; "hrtimer"; "watchdog"; "thermal"; "cpu" ]%string.

Definition strlen (s : string) : nat := String.length s.

(** The string a [char *] designates after one [s1++]. *)
Definition str_next (s : string) : string :=
  match s with
  | EmptyString => EmptyString
  | String _ s' => s'
  end.

(** [memcmp(s1, s2, n) == 0]: the first [n] bytes agree.  The caller passes
    [n = strlen(s2)]; where [s1] is shorter than that, the comparison fails at
    its terminating NUL. *)
Fixpoint memcmp_eq (s1 s2 : string) (n : nat) {struct n} : bool :=
  match n with
  | O => true
  | S n' =>
      match s1, s2 with
      | String a s1', String b s2' =>
          if Ascii.eqb a b then memcmp_eq s1' s2' n' else false
      | EmptyString, EmptyString => true
      | _, _ => false
      end
  end.

(** The [while (len >= l2)] loop of the kernel's [strnstr] (lib/string.c);
    [size_t len] only decreases, so it is the recursion argument. *)
Fixpoint strnstr_loop (s1 s2 : string) (l2 len : nat) {struct len} : option string :=
  if (len <? l2)%nat then None
  else
    match len with
    | O => Some s1
    | S len' =>
        if memcmp_eq s1 s2 l2 then Some s1
        else strnstr_loop (str_next s1) s2 l2 len'
    end.

(** [strnstr(s1, s2, len)]: a pointer to the first occurrence of [s2] within
    the first [len] bytes of [s1], or [None] for NULL. *)
Definition strnstr (s1 s2 : string) (len : nat) : option string :=
  let l2 := strlen s2 in
  if (l2 =? 0)%nat then Some s1 else strnstr_loop s1 s2 l2 len.

(** The loop over [irq_name_blacklist] up to its NULL sentinel. *)
Fixpoint blacklist_scan (nm : string) (table : list string) : bool :=
  match table with
  | [] => false
  | frag :: rest =>
      if (strlen frag <=? strlen nm)%nat && bool_decide (is_Some (strnstr nm frag (strlen nm)))
      then true
      else blacklist_scan nm rest
  end.

Definition is_irq_blacklisted (h : host) (irq : Z) : bool :=
  match irq_to_desc h irq with
  | None => false
  | Some desc =>
      match action desc with
      | None => false
      | Some act =>
          match name act with
          | None => false
          | Some nm => blacklist_scan nm irq_name_blacklist
          end
      end
  end.

(** ** Thermal and frequency queries *)

Definition get_max_cpu_temp (h : host) : Z :=
  if config_thermal h then
    let temp :=
      match thermal_zone_get_zone_by_name h "cpu-thermal" with
      | Some tz => match get_temp tz with Some t => s32 t | None => 0 end
      | None => 0
      end in
    temp `quot` 1000
  else 0.

Definition get_cpu_max_freq (h : host) (cpu : Z) : Z :=
  match cpufreq_cpu_get h cpu with
  | Some policy => u32 (max_freq policy)
  | None => 0
  end.

Definition is_cpu_big (h : host) (cpu : Z) : bool :=
  2000000 <=? get_cpu_max_freq h cpu.

(** ** Module state *)

Record state := {
  exoticbalance_enabled : bool;
  cpu_irq_count : list Z;
  cpu_irq_last : list Z;
  heavy_tick : bool
}.

(** Array read and write at a CPU id.  The arrays hold [nr_cpu_ids] entries
    and every index used is an online CPU id, hence in range (see
    [state_wf]). *)
Definition aget (a : list Z) (cpu : Z) : Z := default 0 (a !! Z.to_nat cpu).
Definition aset (a : list Z) (cpu : Z) (v : Z) : list Z := <[Z.to_nat cpu := v]> a.

Definition state_wf (h : host) (s : state) : Prop :=
  length (cpu_irq_count s) = Z.to_nat (nr_cpu_ids h) ∧
  length (cpu_irq_last s) = Z.to_nat (nr_cpu_ids h).

(** [memset(a, 0, sizeof(unsigned int) * n)] *)
Definition memset_zero (a : list Z) (n : Z) : list Z :=
  replicate (Z.to_nat n) 0 ++ drop (Z.to_nat n) a.

(** ** Sampler: the loop over all interrupt lines *)

(** [for_each_online_cpu(cpu) cpu_irq_count[cpu] += kstat_irqs_cpu(irq, cpu);] *)
Definition sample_irq (h : host) (count : list Z) (irq : Z) : list Z :=
  foldl (λ cnt cpu, aset cnt cpu (u32 (aget cnt cpu + u32 (kstat_irqs_cpu h irq cpu))))
        count (online_cpus h).

Definition sample_body (h : host) (heavy : bool) (count : list Z) (irq : Z) : list Z :=
  if negb heavy && is_irq_blacklisted h irq then count
  else sample_irq h count irq.

Definition sample_all (h : host) (heavy : bool) (count : list Z) : list Z :=
  foldl (sample_body h heavy) count (seqZ 0 (nr_irqs h)).

(** ** Delta tracking and imbalance detection *)

(** The locals of [exotic_balance_irq] that the second loop updates,
    together with [cpu_irq_last]. *)
Record scan := {
  max_irq : Z;
  min_irq : Z;
  max_cpu : Z;
  min_cpu : Z;
  delta_sum : Z;
  scan_last : list Z
}.

Definition scan_init (lst : list Z) : scan :=
  {| max_irq := 0; min_irq := UINT_MAX; max_cpu := -1; min_cpu := -1;
     delta_sum := 0; scan_last := lst |}.

(** One iteration of the second [for_each_online_cpu] loop.  [delta_sum] is
    an [int] to which an [unsigned int] is added: the addition is done on
    [unsigned int] and the result converted back. *)
Definition scan_cpu (count : list Z) (sc : scan) (cpu : Z) : scan :=
  let delta := u32 (aget count cpu - aget (scan_last sc) cpu) in
  let dsum := s32 (u32 (delta_sum sc) + delta) in
  let '(mx, mxc) := if max_irq sc <? delta then (delta, cpu) else (max_irq sc, max_cpu sc) in
  let '(mn, mnc) := if delta <? min_irq sc then (delta, cpu) else (min_irq sc, min_cpu sc) in
  {| max_irq := mx; min_irq := mn; max_cpu := mxc; min_cpu := mnc;
     delta_sum := dsum; scan_last := aset (scan_last sc) cpu (aget count cpu) |}.

Definition scan_online (h : host) (count lst : list Z) : scan :=
  foldl (scan_cpu count) (scan_init lst) (online_cpus h).

(** ** Migrator *)

Record migration := {
  (** the [irq_set_affinity(irq, {to})] calls, in order *)
  affinity_sets : list (Z * Z);
  (** final value of [*migrated] *)
  migrated : Z;
  (** value of [irq] when the loop is left *)
  irq_exit : Z
}.

(** The [for] loop of [migrate_irqs_limited] from [irq] on, [fuel] being the
    number of lines left below [nr_irqs]. *)
Fixpoint migrate_loop (h : host) (to : Z) (fuel : nat) (irq : Z) (mig : Z) : migration :=
  match fuel with
  | O => {| affinity_sets := []; migrated := mig; irq_exit := irq |}
  | S fuel' =>
      if MAX_IRQ_MIGRATE_PER_TICK <=? mig then
        {| affinity_sets := []; migrated := mig; irq_exit := irq |}
      else if negb (irq_can_set_affinity h irq) then migrate_loop h to fuel' (irq + 1) mig
      else if is_irq_blacklisted h irq then migrate_loop h to fuel' (irq + 1) mig
      else if cpu_is_idle_wrap h to then migrate_loop h to fuel' (irq + 1) mig
      else
        let r := migrate_loop h to fuel' (irq + 1) (mig + 1) in
        {| affinity_sets := (irq, to) :: affinity_sets r;
           migrated := migrated r; irq_exit := irq_exit r |}
  end.

Definition migrate_irqs_limited (h : host) (from to : Z) (mig : Z) : migration :=
  migrate_loop h to (Z.to_nat (nr_irqs h)) 0 mig.

(** ** One tick *)

(** What one run of [exotic_balance_irq] leaves behind: the module state, the
    locals at [schedule_next], the call of the migrator if there was one, and
    the delay passed to [schedule_delayed_work]. *)
Record outcome := {
  st : state;
  found : scan;
  delta_avg : Z;
  migrator_call : option (Z * Z);
  moved : list (Z * Z);
  delay_ms : Z
}.

Definition schedule_next (h : host) (mxc : Z) : Z :=
  if cpu_is_idle_wrap h mxc then HEAVY_INTERVAL_MS else LIGHT_INTERVAL_MS.

(** [delta_sum / num_online_cpus()]: an [int] divided by an [unsigned int],
    so the division is unsigned and the quotient is converted back to [int]. *)
Definition average (dsum n : Z) : Z := s32 (u32 dsum `div` n).

(** The guard of the migration, with [max_irq - min_irq] unsigned and the
    [int] threshold converted to [unsigned int] for the comparison. *)
Definition authorized (h : host) (sc : scan) (davg : Z) : bool :=
  let dynamic_threshold := s32 (davg + MIN_DELTA_IRQS_BASE) in
  (0 <=? max_cpu sc) && (0 <=? min_cpu sc) && negb (max_cpu sc =? min_cpu sc) &&
  ((u32 dynamic_threshold <=? u32 (max_irq sc - min_irq sc)) &&
   negb (is_cpu_big h (min_cpu sc)) && is_cpu_big h (max_cpu sc) &&
   (get_max_cpu_temp h <? MAX_CPU_TEMP_THRESHOLD)).

(** [exotic_balance_irq].  [None] is the division by zero of a tick that
    finds no online CPU. *)
Definition exotic_balance_irq (h : host) (s : state) : option outcome :=
  if negb (exoticbalance_enabled s) then
    Some {| st := s; found := scan_init (cpu_irq_last s); delta_avg := 0;
            migrator_call := None; moved := [];
            delay_ms := schedule_next h (-1) |}
  else
    let count := sample_all h (heavy_tick s) (memset_zero (cpu_irq_count s) (nr_cpu_ids h)) in
    let sc := scan_online h count (cpu_irq_last s) in
    if num_online_cpus h =? 0 then None
    else
      let davg := average (delta_sum sc) (num_online_cpus h) in
      let go := authorized h sc davg in
      Some {| st := {| exoticbalance_enabled := exoticbalance_enabled s;
                       cpu_irq_count := count;
                       cpu_irq_last := scan_last sc;
                       heavy_tick := negb (heavy_tick s) |};
              found := sc;
              delta_avg := davg;
              migrator_call := if go then Some (max_cpu sc, min_cpu sc) else None;
              moved := if go
                       then affinity_sets (migrate_irqs_limited h (max_cpu sc) (min_cpu sc) 0)
                       else [];
              delay_ms := schedule_next h (max_cpu sc) |}.

(** ** Loading and unloading the module *)

(** The part of kernel memory the module touches: the live [kzalloc] blocks,
    the two global pointers ([None] is NULL) and the delay of the pending
    [balance_work], if any. *)
Record kernel := {
  kheap : gmap nat (list Z);
  knext : nat;
  ptr_count : option nat;
  ptr_last : option nat;
  work_pending : option Z
}.

(** [kzalloc(sizeof(unsigned int) * n, GFP_KERNEL)]; [ok] tells whether the
    allocator finds memory. *)
Definition kzalloc (ok : bool) (n : Z) (k : kernel) : option nat * kernel :=
  if ok then
    (Some (knext k),
     {| kheap := <[knext k := replicate (Z.to_nat n) 0]> (kheap k);
        knext := S (knext k);
        ptr_count := ptr_count k; ptr_last := ptr_last k;
        work_pending := work_pending k |})
  else (None, k).

(** [kfree(p)]; freeing NULL does nothing. *)
Definition kfree (p : option nat) (k : kernel) : kernel :=
  match p with
  | None => k
  | Some b =>
      {| kheap := delete b (kheap k); knext := knext k;
         ptr_count := ptr_count k; ptr_last := ptr_last k;
         work_pending := work_pending k |}
  end.

(** [exoticbalance_init]: the return value and the kernel it leaves. *)
Definition exoticbalance_init (h : host) (ok1 ok2 : bool) (k : kernel) : Z * kernel :=
  let '(p1, k1) := kzalloc ok1 (nr_cpu_ids h) k in
  let '(p2, k2) := kzalloc ok2 (nr_cpu_ids h) k1 in
  let k3 := {| kheap := kheap k2; knext := knext k2;
               ptr_count := p1; ptr_last := p2;
               work_pending := work_pending k2 |} in
  match p1, p2 with
  | Some _, Some _ =>
      (0, {| kheap := kheap k3; knext := knext k3;
             ptr_count := p1; ptr_last := p2;
             work_pending := Some LIGHT_INTERVAL_MS |})
  | _, _ => (- ENOMEM, k3)
  end.

(** [exoticbalance_exit] *)
Definition exoticbalance_exit (k : kernel) : kernel :=
  let k1 := {| kheap := kheap k; knext := knext k;
               ptr_count := ptr_count k; ptr_last := ptr_last k;
               work_pending := None |} in
  kfree (ptr_last k1) (kfree (ptr_count k1) k1).

(** The module state a successful [exoticbalance_init] sets up. *)
Definition initial_state (h : host) : state :=
  {| exoticbalance_enabled := true;
     cpu_irq_count := replicate (Z.to_nat (nr_cpu_ids h)) 0;
     cpu_irq_last := replicate (Z.to_nat (nr_cpu_ids h)) 0;
     heavy_tick := false |}.

(** * Notions used to state the properties *)

(** [frag] occurs in [nm] as a contiguous, case-sensitive run of characters. *)
Definition occurs_in (frag nm : string) : Prop :=
  ∃ pre post : string, nm = pre +:+ frag +:+ post.

(** The handler name of a line, when the descriptor, its action and the
    name pointer are all present. *)
Definition handler_name (h : host) (irq : Z) : option string :=
  desc ← irq_to_desc h irq; act ← action desc; name act.

(** Sum of a list of integers. *)
Definition sumZ (l : list Z) : Z := foldr Z.add 0 l.

(** A line contributes to the sample unless the pass is coarse and the line
    is protected. *)
Definition counted (h : host) (heavy : bool) (irq : Z) : bool :=
  heavy || negb (is_irq_blacklisted h irq).

(** What the lines counted in this pass have delivered to [cpu], not yet
    reduced to 32 bits. *)
Definition line_total (h : host) (heavy : bool) (cpu : Z) : Z :=
  sumZ ((λ irq, u32 (kstat_irqs_cpu h irq cpu)) <$>
        filter (λ irq, Is_true (counted h heavy irq)) (seqZ 0 (nr_irqs h))).

(** The content of [cpu_irq_count] after the sampling loop of a tick. *)
Definition fresh_count (h : host) (s : state) : list Z :=
  sample_all h (heavy_tick s) (memset_zero (cpu_irq_count s) (nr_cpu_ids h)).

(** The delta the tick computes for [cpu]. *)
Definition delta_of (h : host) (s : state) (cpu : Z) : Z :=
  u32 (aget (fresh_count h s) cpu - aget (cpu_irq_last s) cpu).

(** The deltas of the online CPUs, in scan order. *)
Definition deltas (h : host) (s : state) : list Z :=
  delta_of h s <$> online_cpus h.

(** [c] is the first element of [l] at which [d] is greatest. *)
Definition first_max (d : Z → Z) (l : list Z) (c : Z) : Prop :=
  ∃ pre post, l = pre ++ c :: post ∧
    Forall (λ x, d x < d c) pre ∧ Forall (λ x, d x ≤ d c) post.

(** [c] is the first element of [l] at which [d] is least. *)
Definition first_min (d : Z → Z) (l : list Z) (c : Z) : Prop :=
  ∃ pre post, l = pre ++ c :: post ∧
    Forall (λ x, d c < d x) pre ∧ Forall (λ x, d c ≤ d x) post.

(** A line the migrator may move to [to]: its affinity can be set, it is not
    protected, and [to] is not idle. *)
Definition eligible (h : host) (to : Z) (irq : Z) : bool :=
  irq_can_set_affinity h irq && negb (is_irq_blacklisted h irq) &&
  negb (cpu_is_idle_wrap h to).

(** A CPU is fast when its frequency query succeeds and reports at least
    2.0 GHz (in kHz); otherwise it is slow. *)
Definition fast (h : host) (cpu : Z) : Prop :=
  ∃ policy, cpufreq_cpu_get h cpu = Some policy ∧ 2000000 ≤ u32 (max_freq policy).

(** The four conditions of the specification on the values a tick has
    found, with the average [sum / count] taken by floor division. *)
Definition conditions_as_specified (h : host) (sc : scan) (sum : Z) : Prop :=
  (0 ≤ max_cpu sc ∧ 0 ≤ min_cpu sc ∧ max_cpu sc ≠ min_cpu sc) ∧
  sum `div` num_online_cpus h + MIN_DELTA_IRQS_BASE ≤ max_irq sc - min_irq sc ∧
  (¬ fast h (min_cpu sc) ∧ fast h (max_cpu sc)) ∧
  get_max_cpu_temp h < MAX_CPU_TEMP_THRESHOLD.

(** * Concrete hosts *)

(** A descriptor whose handler carries the name [nm]. *)
Definition named (nm : string) : option irq_desc :=
  Some {| action := Some {| name := Some nm |} |}.

(** Two CPUs, CPU0 a 2.4 GHz core and CPU1 a 1.2 GHz core, ten interrupt
    lines: line 0 a timer, line 1 a touch screen, line 2 without descriptor,
    line 4 without handler, line 5 with an unnamed handler.  Ethernet (line 3)
    has delivered [eth0] interrupts to CPU0 and [eth1] to CPU1, the timer
    [tm0] and [tm1]. *)
Definition board (eth0 eth1 tm0 tm1 : Z) (idle : option (Z → bool)) (millideg : Z) : host :=
  {| nr_irqs := 10;
     nr_cpu_ids := 2;
     cpu_online := λ _, true;
     kstat_irqs_cpu := λ irq cpu,
       if irq =? 3 then (if cpu =? 0 then eth0 else eth1)
       else if irq =? 0 then (if cpu =? 0 then tm0 else tm1)
       else 0;
     irq_to_desc := λ irq,
       if irq =? 0 then named "arch_timer"
       else if irq =? 1 then named "synaptics_ts"
       else if irq =? 2 then None
       else if irq =? 3 then named "eth0"
       else if irq =? 4 then Some {| action := None |}
       else if irq =? 5 then Some {| action := Some {| name := None |} |}
       else named "gpio-keys";
     irq_can_set_affinity := λ irq, negb (irq =? 2);
     cpuidle_cpu_in_idle := idle;
     config_thermal := true;
     thermal_zone_get_zone_by_name := λ nm,
       if String.eqb nm "cpu-thermal" then Some {| get_temp := Some millideg |} else None;
     cpufreq_cpu_get := λ cpu,
       if cpu =? 0 then Some {| max_freq := 2400000 |}
       else if cpu =? 1 then Some {| max_freq := 1200000 |}
       else None |}.

(** The first scenario of the specification: deltas 2000 and 100 at 50
    degrees. *)
Definition demo_host : host := board 2000 100 70000 90000 None 50000.

(** The same board with [h]'s second CPU taken offline. *)
Definition unplug_cpu1 (h : host) : host :=
  {| nr_irqs := nr_irqs h; nr_cpu_ids := nr_cpu_ids h;
     cpu_online := λ c, c =? 0;
     kstat_irqs_cpu := kstat_irqs_cpu h;
     irq_to_desc := irq_to_desc h;
     irq_can_set_affinity := irq_can_set_affinity h;
     cpuidle_cpu_in_idle := cpuidle_cpu_in_idle h;
     config_thermal := config_thermal h;
     thermal_zone_get_zone_by_name := thermal_zone_get_zone_by_name h;
     cpufreq_cpu_get := cpufreq_cpu_get h |}.

(** Writing the module parameter [exoticbalance_enabled]. *)
Definition set_enabled (b : bool) (s : state) : state :=
  {| exoticbalance_enabled := b;
     cpu_irq_count := cpu_irq_count s;
     cpu_irq_last := cpu_irq_last s;
     heavy_tick := heavy_tick s |}.

(** An empty kernel heap, before the module is loaded. *)
Definition boot_kernel : kernel :=
  {| kheap := ∅; knext := 0; ptr_count := None; ptr_last := None;
     work_pending := None |}.

(** What the first tick after loading leaves on [demo_host]. *)
Definition demo_outcome : outcome :=
  {| st := {| exoticbalance_enabled := true;
              cpu_irq_count := [2000; 100];
              cpu_irq_last := [2000; 100];
              heavy_tick := true |};
     found := {| max_irq := 2000; min_irq := 100; max_cpu := 0; min_cpu := 1;
                 delta_sum := 2100; scan_last := [2000; 100] |};
     delta_avg := 1050;
     migrator_call := Some (0, 1);
     moved := [(3, 1); (4, 1); (5, 1); (6, 1); (7, 1)];
     delay_ms := 5000 |}.

(** [demo_host] on a platform whose idle query reports CPU0 idle. *)
Definition idle_board : host :=
  board 2000 100 70000 90000 (Some (λ c, c =? 0)) 50000.

(** A board on which no interrupt has been delivered yet. *)
Definition quiet_board : host := board 0 0 0 0 None 50000.

(** [demo_host] after a long uptime: 2^31 and 2^30 ethernet interrupts since
    boot. *)
Definition uptime_board : host := board 2147483648 1073741824 0 0 None 50000.

(** Ethernet counters of 2^32 - 1000 and 2^31. *)
Definition flood_board : host := board 4294966296 2147483648 0 0 None 50000.

(** A board whose only interrupts so far are 7 timer interrupts on CPU0. *)
Definition timer_board : host := board 0 0 7 0 None 50000.

(** [h] with the core types reversed: CPU0 the 1.2 GHz core, CPU1 the
    2.4 GHz core. *)
Definition swap_cores (h : host) : host :=
  {| nr_irqs := nr_irqs h; nr_cpu_ids := nr_cpu_ids h;
     cpu_online := cpu_online h;
     kstat_irqs_cpu := kstat_irqs_cpu h;
     irq_to_desc := irq_to_desc h;
     irq_can_set_affinity := irq_can_set_affinity h;
     cpuidle_cpu_in_idle := cpuidle_cpu_in_idle h;
     config_thermal := config_thermal h;
     thermal_zone_get_zone_by_name := thermal_zone_get_zone_by_name h;
     cpufreq_cpu_get := λ cpu,
       if cpu =? 0 then Some {| max_freq := 1200000 |}
       else if cpu =? 1 then Some {| max_freq := 2400000 |}
       else None |}.

(** * Further notions *)

(** What the protected lines have delivered to [cpu]. *)
Definition protected_total (h : host) (cpu : Z) : Z :=
  sumZ ((λ irq, u32 (kstat_irqs_cpu h irq cpu)) <$>
        filter (λ irq, Is_true (is_irq_blacklisted h irq)) (seqZ 0 (nr_irqs h))).

(** The millidegree reading [get_max_cpu_temp] obtains, when thermal support
    is configured, the zone exists and its [get_temp] stores a value. *)
Definition thermal_reading (h : host) : option Z :=
  if config_thermal h then
    tz ← thermal_zone_get_zone_by_name h "cpu-thermal"; get_temp tz
  else None.

(** Lower-case ASCII letters, and strings that contain one. *)
Definition is_lower (a : Ascii.ascii) : bool :=
  let n := Ascii.nat_of_ascii a in (97 <=? n)%nat && (n <=? 122)%nat.

Fixpoint has_lower (s : string) : bool :=
  match s with
  | EmptyString => false
  | String a s' => is_lower a || has_lower s'
  end.

(** The work item rescheduling itself: one tick per entry, on the host as it
    is at that time, after the module parameter has been written to [en]. *)
Fixpoint run_ticks (evs : list (host * bool)) (s : state) : option state :=
  match evs with
  | [] => Some s
  | (h, en) :: rest =>
      match exotic_balance_irq h (set_enabled en s) with
      | Some o => run_ticks rest (st o)
      | None => None
      end
  end.

(** Number of entries of a run whose tick is executed. *)
Definition executed (evs : list (host * bool)) : nat :=
  length (filter (λ e, Is_true e.2) evs).

(** A board with both cores reporting the same frequency [khz]. *)
Definition twin_board (khz : Z) : host :=
  {| nr_irqs := nr_irqs demo_host; nr_cpu_ids := nr_cpu_ids demo_host;
     cpu_online := cpu_online demo_host;
     kstat_irqs_cpu := kstat_irqs_cpu demo_host;
     irq_to_desc := irq_to_desc demo_host;
     irq_can_set_affinity := irq_can_set_affinity demo_host;
     cpuidle_cpu_in_idle := cpuidle_cpu_in_idle demo_host;
     config_thermal := config_thermal demo_host;
     thermal_zone_get_zone_by_name := thermal_zone_get_zone_by_name demo_host;
     cpufreq_cpu_get := λ _, Some {| max_freq := khz |} |}.

(** Equal ethernet load on both CPUs. *)
Definition even_board : host := board 500 500 70000 90000 None 50000.

(** * Sanity checks of the embedding *)

Example blacklist_synaptics : blacklist_scan "synaptics_ts" irq_name_blacklist = true.
Proof. reflexivity. Qed.

Example blacklist_case : blacklist_scan "TOUCH" irq_name_blacklist = false.
Proof. reflexivity. Qed.

Example blacklist_eth : blacklist_scan "eth0" irq_name_blacklist = false.
Proof. reflexivity. Qed.


Example demo_tick :
  exotic_balance_irq demo_host (initial_state demo_host) = Some demo_outcome.
Proof. vm_compute. reflexivity. Qed.

Example demo_tick_hot :
  migrator_call <$> exotic_balance_irq (board 2000 100 70000 90000 None 80000)
                                       (initial_state demo_host) = Some None.
Proof. vm_compute. reflexivity. Qed.

Example demo_tick_reversed :
  migrator_call <$> exotic_balance_irq (swap_cores demo_host) (initial_state demo_host)
  = Some None.
Proof. vm_compute. reflexivity. Qed.

Example demo_migrator :
  migrate_irqs_limited demo_host 0 1 0 =
  {| affinity_sets := [(3, 1); (4, 1); (5, 1); (6, 1); (7, 1)];
     migrated := 5; irq_exit := 8 |}.
Proof. vm_compute. reflexivity. Qed.

Example demo_init_ok :
  (exoticbalance_init demo_host true true boot_kernel).1 = 0.
Proof. reflexivity. Qed.

Example demo_init_enomem :
  (exoticbalance_init demo_host false true boot_kernel).1 = -12.
Proof. reflexivity. Qed.

(** * Properties *)

(** ** 32-bit conversions *)

Lemma u32_range x : 0 ≤ u32 x < 4294967296.
Proof. unfold u32. apply Z.mod_pos_bound. lia. Qed.

Lemma u32_le_max x : u32 x ≤ UINT_MAX.
Proof. pose proof (u32_range x). unfold UINT_MAX. lia. Qed.

Lemma s32_range x : -2147483648 ≤ s32 x < 2147483648.
Proof.
  unfold s32. pose proof (Z.mod_pos_bound (x + 2147483648) 4294967296). lia.
Qed.

Lemma u32_small x : 0 ≤ x < 4294967296 → u32 x = x.
Proof. intros. unfold u32. by apply Z.mod_small. Qed.

Lemma s32_small x : -2147483648 ≤ x < 2147483648 → s32 x = x.
Proof. intros. unfold s32. rewrite Z.mod_small; lia. Qed.

Lemma u32_s32 x : u32 (s32 x) = u32 x.
Proof.
  unfold u32, s32. rewrite Zminus_mod_idemp_l. f_equal. lia.
Qed.

Lemma s32_u32 x : s32 (u32 x) = s32 x.
Proof.
  unfold u32, s32. f_equal.
  rewrite <- (Zplus_mod_idemp_l x). done.
Qed.

Lemma u32_add_l x y : u32 (u32 x + y) = u32 (x + y).
Proof. unfold u32. apply Zplus_mod_idemp_l. Qed.

Lemma u32_add_r x y : u32 (x + u32 y) = u32 (x + y).
Proof. unfold u32. apply Zplus_mod_idemp_r. Qed.

(** ** Substring search *)

Lemma strlen_append (s t : string) : strlen (s +:+ t) = (strlen s + strlen t)%nat.
Proof. induction s as [|a s IH]; simpl; [done | by rewrite <- IH]. Qed.

Lemma memcmp_eq_prefix (s2 s1 : string) :
  memcmp_eq s1 s2 (strlen s2) = true ↔ ∃ post, s1 = s2 +:+ post.
Proof.
  revert s1. induction s2 as [|b s2 IH]; intros s1; simpl.
  - split; [intros _; by exists s1 | done].
  - destruct s1 as [|a s1].
    + split; [done | intros [post Hp]; discriminate].
    + destruct (Ascii.eqb a b) eqn:Hab.
      * apply Ascii.eqb_eq in Hab as ->. rewrite IH.
        split; intros [post Hp]; exists post; [by rewrite Hp | by injection Hp].
      * apply Ascii.eqb_neq in Hab.
        split; [done | intros [post Hp]; injection Hp; intros; congruence].
Qed.

Lemma strnstr_loop_occurs (s2 s1 : string) :
  (0 < strlen s2)%nat →
  is_Some (strnstr_loop s1 s2 (strlen s2) (strlen s1)) ↔ occurs_in s2 s1.
Proof.
  intros Hpos. induction s1 as [|a s1 IH].
  - simpl. destruct (0 <? strlen s2)%nat eqn:Hlt.
    + split; [intros [? ?]; done |].
      intros (pre & post & Hp). apply (f_equal strlen) in Hp.
      rewrite !strlen_append in Hp. simpl in Hp. lia.
    + apply Nat.ltb_ge in Hlt. lia.
  - cbn [strlen String.length strnstr_loop]. fold (strlen s1).
    destruct (S (strlen s1) <? strlen s2)%nat eqn:Hlt.
    + apply Nat.ltb_lt in Hlt. split; [intros [? ?]; done |].
      intros (pre & post & Hp). apply (f_equal strlen) in Hp.
      rewrite !strlen_append in Hp. simpl in Hp. lia.
    + destruct (memcmp_eq (String a s1) s2 (strlen s2)) eqn:Hcmp.
      * split; [intros _ | by eauto].
        apply memcmp_eq_prefix in Hcmp as [post Hp].
        by exists EmptyString, post.
      * simpl str_next. rewrite IH. split.
        -- intros (pre & post & ->). by exists (String a pre), post.
        -- intros (pre & post & Hp). destruct pre as [|c pre].
           ++ simpl in Hp. assert (memcmp_eq (String a s1) s2 (strlen s2) = true) as Ht
                by (apply memcmp_eq_prefix; eauto).
              congruence.
           ++ simpl in Hp. injection Hp as -> ->. by exists pre, post.
Qed.

Lemma strnstr_occurs (nm frag : string) :
  is_Some (strnstr nm frag (strlen nm)) ↔ occurs_in frag nm.
Proof.
  unfold strnstr. destruct (strlen frag =? 0)%nat eqn:Hz.
  - apply Nat.eqb_eq in Hz. destruct frag; [|done].
    split; [intros _; by exists EmptyString, nm | by eauto].
  - apply Nat.eqb_neq in Hz. apply strnstr_loop_occurs. lia.
Qed.

Lemma occurs_in_strlen (frag nm : string) :
  occurs_in frag nm → (strlen frag ≤ strlen nm)%nat.
Proof.
  intros (pre & post & ->). rewrite !strlen_append. lia.
Qed.

Lemma blacklist_scan_occurs (nm : string) (table : list string) :
  blacklist_scan nm table = true ↔ ∃ frag, frag ∈ table ∧ occurs_in frag nm.
Proof.
  induction table as [|frag rest IH]; simpl.
  - split; [done | intros (? & Hin & _); by apply elem_of_nil in Hin].
  - destruct (strlen frag <=? strlen nm)%nat eqn:Hlen; simpl.
    + case_bool_decide as Hs.
      * split; [intros _ | done]. exists frag. split; [left |].
        by apply strnstr_occurs.
      * rewrite IH. split.
        -- intros (f & Hin & Hocc). exists f. split; [by right | done].
        -- intros (f & Hin & Hocc). apply elem_of_cons in Hin as [-> | Hin].
           ++ by apply strnstr_occurs in Hocc.
           ++ eauto.
    + apply Nat.leb_gt in Hlen. rewrite IH. split.
      * intros (f & Hin & Hocc). exists f. split; [by right | done].
      * intros (f & Hin & Hocc). apply elem_of_cons in Hin as [-> | Hin].
        -- apply occurs_in_strlen in Hocc. lia.
        -- eauto.
Qed.

Lemma is_irq_blacklisted_name (h : host) (irq : Z) :
  is_irq_blacklisted h irq =
  match handler_name h irq with
  | Some nm => blacklist_scan nm irq_name_blacklist
  | None => false
  end.
Proof.
  unfold is_irq_blacklisted, handler_name.
  destruct (irq_to_desc h irq) as [d|]; simpl; [|done].
  destruct (action d) as [a|]; simpl; [|done].
  by destruct (name a).
Qed.

Lemma is_irq_blacklisted_occurs (h : host) (irq : Z) :
  is_irq_blacklisted h irq = true ↔
  ∃ nm frag, handler_name h irq = Some nm ∧ frag ∈ irq_name_blacklist ∧ occurs_in frag nm.
Proof.
  rewrite is_irq_blacklisted_name. destruct (handler_name h irq) as [nm|].
  - rewrite blacklist_scan_occurs. split.
    + intros (f & ? & ?). by exists nm, f.
    + intros (nm' & f & [= <-] & ? & ?). by exists f.
  - split; [done | intros (? & ? & ? & _); done].
Qed.

(** ** Online CPUs and array accesses *)

Lemma online_cpus_range (h : host) (c : Z) :
  c ∈ online_cpus h ↔ 0 ≤ c < nr_cpu_ids h ∧ cpu_online h c = true.
Proof.
  unfold online_cpus. rewrite list_elem_of_filter, elem_of_seqZ.
  rewrite Is_true_true. intuition lia.
Qed.

Lemma online_cpus_NoDup (h : host) : NoDup (online_cpus h).
Proof. apply NoDup_filter, NoDup_seqZ. Qed.

Lemma num_online_cpus_nonneg (h : host) : 0 ≤ num_online_cpus h.
Proof. unfold num_online_cpus. lia. Qed.

Lemma length_aset (a : list Z) c v : length (aset a c v) = length a.
Proof. apply length_insert. Qed.

Lemma aget_aset_eq (a : list Z) c v :
  (Z.to_nat c < length a)%nat → aget (aset a c v) c = v.
Proof.
  intros Hc. unfold aget, aset.
  by rewrite list_lookup_insert_eq.
Qed.

Lemma aget_aset_ne (a : list Z) c c' v :
  0 ≤ c → 0 ≤ c' → c ≠ c' → aget (aset a c v) c' = aget a c'.
Proof.
  intros ? ? Hne. unfold aget, aset.
  rewrite list_lookup_insert_ne; [done | lia].
Qed.

Lemma aget_replicate n c : aget (replicate n 0) c = 0.
Proof.
  unfold aget. destruct (replicate n 0 !! Z.to_nat c) as [v|] eqn:Hv; [|done].
  by apply lookup_replicate_1 in Hv as [-> _].
Qed.

Lemma memset_zero_wf (a : list Z) n :
  length a = Z.to_nat n → memset_zero a n = replicate (Z.to_nat n) 0.
Proof.
  intros Hl. unfold memset_zero. rewrite drop_ge by lia. apply app_nil_r.
Qed.

(** ** Loops that update an array at each CPU of a list *)

Section pointwise.
Variable g : Z → Z → Z.

Lemma foldl_aset_length (cs : list Z) (a : list Z) :
  length (foldl (λ a c, aset a c (g c (aget a c))) a cs) = length a.
Proof.
  revert a. induction cs as [|x cs IH]; intros a; simpl; [done|].
  by rewrite IH, length_aset.
Qed.

Lemma foldl_aset_get (cs : list Z) (a : list Z) (c : Z) :
  NoDup cs →
  Forall (λ x, 0 ≤ x ∧ (Z.to_nat x < length a)%nat) cs →
  0 ≤ c →
  aget (foldl (λ a c, aset a c (g c (aget a c))) a cs) c =
  if decide (c ∈ cs) then g c (aget a c) else aget a c.
Proof.
  revert a. induction cs as [|x cs IH]; intros a Hnd Hin Hc; cbn [foldl].
  - by rewrite decide_False by apply not_elem_of_nil.
  - apply NoDup_cons in Hnd as [Hx Hnd].
    apply Forall_cons in Hin as [[Hx0 Hxl] Hin].
    assert (Forall (λ y, 0 ≤ y ∧ (Z.to_nat y < length (aset a x (g x (aget a x))))%nat) cs)
      as Hin' by (eapply Forall_impl; [exact Hin|]; intros y [? ?]; by rewrite length_aset).
    rewrite (IH _ Hnd Hin' Hc).
    destruct (decide (c = x)) as [->|Hne].
    + rewrite (decide_False (P := x ∈ cs)) by done.
      rewrite (decide_True (P := x ∈ x :: cs)) by left.
      by apply aget_aset_eq.
    + rewrite (aget_aset_ne a x c) by done.
      destruct (decide (c ∈ cs)) as [Hcs|Hcs].
      * by rewrite (decide_True (P := c ∈ x :: cs)) by (by right).
      * rewrite (decide_False (P := c ∈ x :: cs)); [done|].
        intros [?|?]%elem_of_cons; done.
Qed.

Lemma foldl_aset_get_notin (cs : list Z) (a : list Z) (c : Z) :
  Forall (λ x, 0 ≤ x) cs → 0 ≤ c → c ∉ cs →
  aget (foldl (λ a c, aset a c (g c (aget a c))) a cs) c = aget a c.
Proof.
  revert a. induction cs as [|x cs IH]; intros a Hin Hc Hnot; cbn [foldl]; [done|].
  apply Forall_cons in Hin as [Hx0 Hin].
  apply not_elem_of_cons in Hnot as [Hne Hnot].
  rewrite IH by done. by apply aget_aset_ne.
Qed.
End pointwise.

Lemma online_cpus_in_range (h : host) (a : list Z) :
  (Z.to_nat (nr_cpu_ids h) ≤ length a)%nat →
  Forall (λ x, 0 ≤ x ∧ (Z.to_nat x < length a)%nat) (online_cpus h).
Proof.
  intros Hl. apply Forall_forall. intros x [Hx _]%online_cpus_range. lia.
Qed.

(** ** The sampler *)

Lemma sample_irq_length (h : host) count irq :
  length (sample_irq h count irq) = length count.
Proof.
  unfold sample_irq.
  apply (foldl_aset_length (λ c old, u32 (old + u32 (kstat_irqs_cpu h irq c)))).
Qed.

Lemma sample_irq_get (h : host) count irq c :
  (Z.to_nat (nr_cpu_ids h) ≤ length count)%nat → 0 ≤ c →
  aget (sample_irq h count irq) c =
  if decide (c ∈ online_cpus h)
  then u32 (aget count c + u32 (kstat_irqs_cpu h irq c))
  else aget count c.
Proof.
  intros Hl Hc. unfold sample_irq.
  apply (foldl_aset_get (λ c old, u32 (old + u32 (kstat_irqs_cpu h irq c))));
    [apply online_cpus_NoDup | by apply online_cpus_in_range | done].
Qed.

Lemma sample_body_length (h : host) heavy count irq :
  length (sample_body h heavy count irq) = length count.
Proof.
  unfold sample_body. destruct (negb heavy && is_irq_blacklisted h irq); [done|].
  apply sample_irq_length.
Qed.

Lemma foldl_sample_length (h : host) heavy irqs count :
  length (foldl (sample_body h heavy) count irqs) = length count.
Proof.
  revert count. induction irqs as [|i irqs IH]; intros count; simpl; [done|].
  by rewrite IH, sample_body_length.
Qed.

Lemma counted_body (h : host) heavy irq :
  negb heavy && is_irq_blacklisted h irq = negb (counted h heavy irq).
Proof. unfold counted. by destruct heavy, (is_irq_blacklisted h irq). Qed.

Lemma foldl_sample_offline (h : host) heavy irqs count c :
  (Z.to_nat (nr_cpu_ids h) ≤ length count)%nat → 0 ≤ c →
  c ∉ online_cpus h →
  aget (foldl (sample_body h heavy) count irqs) c = aget count c.
Proof.
  intros Hl Hc Hoff. revert count Hl.
  induction irqs as [|i irqs IH]; intros count Hl; simpl; [done|].
  rewrite IH by (by rewrite sample_body_length).
  unfold sample_body. destruct (negb heavy && is_irq_blacklisted h i); [done|].
  rewrite sample_irq_get by done. by rewrite decide_False.
Qed.

Lemma foldl_sample_online (h : host) heavy irqs count c :
  (Z.to_nat (nr_cpu_ids h) ≤ length count)%nat →
  c ∈ online_cpus h →
  0 ≤ aget count c < 4294967296 →
  aget (foldl (sample_body h heavy) count irqs) c =
  u32 (aget count c +
       sumZ ((λ irq, u32 (kstat_irqs_cpu h irq c)) <$>
             filter (λ irq, Is_true (counted h heavy irq)) irqs)).
Proof.
  intros Hl Hon. assert (0 ≤ c) as Hc by (apply online_cpus_range in Hon; lia).
  revert count Hl.
  induction irqs as [|i irqs IH]; intros count Hl Hrng; cbn [foldl].
  - rewrite filter_nil. simpl. rewrite Z.add_0_r. by rewrite u32_small.
  - unfold sample_body at 2. rewrite counted_body, filter_cons.
    destruct (counted h heavy i) eqn:Hcnt; cbn [negb].
    + rewrite (decide_True (P := Is_true true)) by done.
      rewrite fmap_cons. cbn [sumZ foldr]. fold (sumZ).
      rewrite IH.
      * rewrite sample_irq_get by done. rewrite decide_True by done.
        rewrite u32_add_l. f_equal. unfold sumZ. lia.
      * by rewrite sample_irq_length.
      * rewrite sample_irq_get by done. rewrite decide_True by done.
        apply u32_range.
    + rewrite (decide_False (P := Is_true false)) by (by intros ?). by apply IH.
Qed.

Lemma memset_zero_length (a : list Z) n :
  (Z.to_nat n ≤ length (memset_zero a n))%nat.
Proof. unfold memset_zero. rewrite length_app, length_replicate. lia. Qed.

Lemma memset_zero_get (a : list Z) n c :
  0 ≤ c < n → aget (memset_zero a n) c = 0.
Proof.
  intros Hc. unfold memset_zero, aget.
  rewrite lookup_app_l by (rewrite length_replicate; lia).
  rewrite lookup_replicate_2 by lia. done.
Qed.

Lemma fresh_count_length (h : host) (s : state) :
  (Z.to_nat (nr_cpu_ids h) ≤ length (fresh_count h s))%nat.
Proof.
  unfold fresh_count, sample_all. rewrite foldl_sample_length.
  apply memset_zero_length.
Qed.

Lemma fresh_count_length_wf (h : host) (s : state) :
  state_wf h s → length (fresh_count h s) = Z.to_nat (nr_cpu_ids h).
Proof.
  intros [Hc _]. unfold fresh_count, sample_all.
  rewrite foldl_sample_length, memset_zero_wf by done. apply length_replicate.
Qed.

Lemma fresh_count_online (h : host) (s : state) (c : Z) :
  c ∈ online_cpus h →
  aget (fresh_count h s) c = u32 (line_total h (heavy_tick s) c).
Proof.
  intros Hon. unfold fresh_count, sample_all, line_total.
  pose proof Hon as [Hr _]%online_cpus_range.
  rewrite foldl_sample_online; [| apply memset_zero_length | done |].
  - by rewrite memset_zero_get.
  - rewrite memset_zero_get by done. lia.
Qed.

Lemma fresh_count_offline (h : host) (s : state) (c : Z) :
  0 ≤ c < nr_cpu_ids h → c ∉ online_cpus h →
  aget (fresh_count h s) c = 0.
Proof.
  intros Hr Hoff. unfold fresh_count, sample_all.
  rewrite foldl_sample_offline; [| apply memset_zero_length | lia | done].
  by apply memset_zero_get.
Qed.

(** ** The scan over the online CPUs *)

Lemma sumZ_app (l k : list Z) : sumZ (l ++ k) = sumZ l + sumZ k.
Proof. unfold sumZ. induction l as [|x l IH]; simpl; lia. Qed.

Lemma sumZ_nonneg (l : list Z) : Forall (λ x, 0 ≤ x) l → 0 ≤ sumZ l.
Proof. unfold sumZ. induction 1; simpl; lia. Qed.

Section scan.
Variables count lst : list Z.

(** The delta of a CPU against the array as it was before the scan. *)
Let d0 (c : Z) : Z := u32 (aget count c - aget lst c).

Let run (l : list Z) : scan := foldl (scan_cpu count) (scan_init lst) l.

Lemma scan_last_foldl (l : list Z) (sc : scan) :
  scan_last (foldl (scan_cpu count) sc l) =
  foldl (λ a c, aset a c (aget count c)) (scan_last sc) l.
Proof.
  revert sc. induction l as [|x l IH]; intros sc; cbn [foldl]; [done|].
  rewrite IH. f_equal. unfold scan_cpu.
  by destruct (_ <? _), (_ <? _).
Qed.

Lemma scan_last_length (l : list Z) :
  length (scan_last (run l)) = length lst.
Proof.
  unfold run. rewrite scan_last_foldl.
  apply (foldl_aset_length (λ c _, aget count c)).
Qed.

Lemma scan_last_get (l : list Z) (c : Z) :
  NoDup l → Forall (λ x, 0 ≤ x ∧ (Z.to_nat x < length lst)%nat) l → 0 ≤ c →
  aget (scan_last (run l)) c = if decide (c ∈ l) then aget count c else aget lst c.
Proof.
  intros. unfold run. rewrite scan_last_foldl.
  by apply (foldl_aset_get (λ c _, aget count c)).
Qed.

(** Each step sees the delta against the old array: a CPU is visited once. *)
Lemma run_snoc (l : list Z) (x : Z) :
  NoDup (l ++ [x]) →
  Forall (λ x, 0 ≤ x) (l ++ [x]) →
  run (l ++ [x]) =
  {| max_irq := if max_irq (run l) <? d0 x then d0 x else max_irq (run l);
     min_irq := if d0 x <? min_irq (run l) then d0 x else min_irq (run l);
     max_cpu := if max_irq (run l) <? d0 x then x else max_cpu (run l);
     min_cpu := if d0 x <? min_irq (run l) then x else min_cpu (run l);
     delta_sum := s32 (u32 (delta_sum (run l)) + d0 x);
     scan_last := aset (scan_last (run l)) x (aget count x) |}.
Proof.
  intros Hnd Hr. unfold run at 1. rewrite foldl_app. cbn [foldl]. fold (run l).
  apply NoDup_app in Hnd as (Hnd & Hx & _).
  apply Forall_app in Hr as [Hr [Hx0 _]%Forall_cons].
  assert (aget (scan_last (run l)) x = aget lst x) as Hold.
  { unfold run. rewrite scan_last_foldl.
    apply (foldl_aset_get_notin (λ c _, aget count c)); [done | done |].
    intros Hin; apply (Hx x Hin); left. }
  unfold scan_cpu. rewrite Hold.
  fold (d0 x). by destruct (_ <? _), (_ <? _).
Qed.

Lemma d0_range (c : Z) : 0 ≤ d0 c ≤ UINT_MAX.
Proof. unfold d0, UINT_MAX. pose proof (u32_range (aget count c - aget lst c)). lia. Qed.

Lemma run_delta_sum (l : list Z) :
  NoDup l → Forall (λ x, 0 ≤ x) l →
  delta_sum (run l) = s32 (sumZ (d0 <$> l)).
Proof.
  induction l as [|x l IH] using rev_ind; intros Hnd Hr; [done|].
  rewrite run_snoc by done. cbn [delta_sum].
  rewrite IH by (by apply NoDup_app in Hnd as (? & _); apply Forall_app in Hr as [? _]).
  rewrite fmap_app, sumZ_app. cbn. rewrite Z.add_0_r.
  rewrite <- s32_u32, u32_add_l, <- u32_add_l, u32_s32, u32_add_l.
  apply s32_u32.
Qed.

Lemma run_max (l : list Z) :
  NoDup l → Forall (λ x, 0 ≤ x) l →
  (max_cpu (run l) = -1 ∧ max_irq (run l) = 0 ∧ Forall (λ c, d0 c = 0) l) ∨
  (0 < max_irq (run l) ∧ max_irq (run l) = d0 (max_cpu (run l)) ∧
   first_max d0 l (max_cpu (run l))).
Proof.
  induction l as [|x l IH] using rev_ind; intros Hnd Hr; [by left|].
  rewrite run_snoc by done. cbn [max_cpu max_irq].
  specialize (IH ltac:(by apply NoDup_app in Hnd as (? & _))
                 ltac:(by apply Forall_app in Hr as [? _])).
  pose proof (d0_range x) as Hx.
  destruct (max_irq (run l) <? d0 x) eqn:Hlt.
  - apply Z.ltb_lt in Hlt. right. split_and!; [| done |].
    + destruct IH as [(_ & Hz & _) | (? & _)]; lia.
    + exists l, []. split_and!; [done | | done].
      destruct IH as [(_ & Hz & Hall) | (_ & Heq & pre & post & Hl & Hpre & Hpost)].
      * eapply Forall_impl; [exact Hall|]. intros y Hy; cbv beta in *; lia.
      * rewrite Hl. apply Forall_app. split; [|apply Forall_cons; split].
        -- eapply Forall_impl; [exact Hpre|]. intros y Hy; cbv beta in *; lia.
        -- lia.
        -- eapply Forall_impl; [exact Hpost|]. intros y Hy; cbv beta in *; lia.
  - apply Z.ltb_ge in Hlt.
    destruct IH as [(Hc & Hz & Hall) | (Hpos & Heq & pre & post & Hl & Hpre & Hpost)].
    + left. split_and!; [done | done |].
      apply Forall_app; split; [done|]. apply Forall_singleton. lia.
    + right. split_and!; [done | done |].
      exists pre, (post ++ [x]). split_and!.
      * rewrite Hl at 1. by rewrite <- app_assoc.
      * done.
      * apply Forall_app; split; [done|]. apply Forall_singleton. lia.
Qed.

Lemma run_min (l : list Z) :
  NoDup l → Forall (λ x, 0 ≤ x) l →
  (min_cpu (run l) = -1 ∧ min_irq (run l) = UINT_MAX ∧ Forall (λ c, d0 c = UINT_MAX) l) ∨
  (min_irq (run l) < UINT_MAX ∧ min_irq (run l) = d0 (min_cpu (run l)) ∧
   first_min d0 l (min_cpu (run l))).
Proof.
  induction l as [|x l IH] using rev_ind; intros Hnd Hr; [by left|].
  rewrite run_snoc by done. cbn [min_cpu min_irq].
  specialize (IH ltac:(by apply NoDup_app in Hnd as (? & _))
                 ltac:(by apply Forall_app in Hr as [? _])).
  pose proof (d0_range x) as Hx.
  destruct (d0 x <? min_irq (run l)) eqn:Hlt.
  - apply Z.ltb_lt in Hlt. right. split_and!; [| done |].
    + destruct IH as [(_ & Hz & _) | (? & _)]; lia.
    + exists l, []. split_and!; [done | | done].
      destruct IH as [(_ & Hz & Hall) | (_ & Heq & pre & post & Hl & Hpre & Hpost)].
      * eapply Forall_impl; [exact Hall|]. intros y Hy; cbv beta in *; lia.
      * rewrite Hl. apply Forall_app. split; [|apply Forall_cons; split].
        -- eapply Forall_impl; [exact Hpre|]. intros y Hy; cbv beta in *; lia.
        -- lia.
        -- eapply Forall_impl; [exact Hpost|]. intros y Hy; cbv beta in *; lia.
  - apply Z.ltb_ge in Hlt.
    destruct IH as [(Hc & Hz & Hall) | (Hpos & Heq & pre & post & Hl & Hpre & Hpost)].
    + left. split_and!; [done | done |].
      apply Forall_app; split; [done|]. apply Forall_singleton. lia.
    + right. split_and!; [done | done |].
      exists pre, (post ++ [x]). split_and!.
      * rewrite Hl at 1. by rewrite <- app_assoc.
      * done.
      * apply Forall_app; split; [done|]. apply Forall_singleton. lia.
Qed.
End scan.

Lemma online_cpus_nonneg (h : host) : Forall (λ x, 0 ≤ x) (online_cpus h).
Proof. apply Forall_forall. intros x [Hx _]%online_cpus_range. lia. Qed.

Lemma scan_online_last_get (h : host) (count lst : list Z) (c : Z) :
  (Z.to_nat (nr_cpu_ids h) ≤ length lst)%nat → 0 ≤ c →
  aget (scan_last (scan_online h count lst)) c =
  if decide (c ∈ online_cpus h) then aget count c else aget lst c.
Proof.
  intros Hl Hc. unfold scan_online.
  apply scan_last_get; [apply online_cpus_NoDup | by apply online_cpus_in_range | done].
Qed.

Lemma scan_online_last_length (h : host) (count lst : list Z) :
  length (scan_last (scan_online h count lst)) = length lst.
Proof. apply scan_last_length. Qed.

Lemma scan_online_delta_sum (h : host) (s : state) :
  delta_sum (scan_online h (fresh_count h s) (cpu_irq_last s)) = s32 (sumZ (deltas h s)).
Proof.
  unfold scan_online, deltas.
  apply run_delta_sum; [apply online_cpus_NoDup | apply online_cpus_nonneg].
Qed.

Lemma scan_online_max (h : host) (s : state) :
  let sc := scan_online h (fresh_count h s) (cpu_irq_last s) in
  (max_cpu sc = -1 ∧ max_irq sc = 0 ∧ Forall (λ c, delta_of h s c = 0) (online_cpus h)) ∨
  (0 < max_irq sc ∧ max_irq sc = delta_of h s (max_cpu sc) ∧
   first_max (delta_of h s) (online_cpus h) (max_cpu sc)).
Proof.
  apply (run_max (fresh_count h s) (cpu_irq_last s));
    [apply online_cpus_NoDup | apply online_cpus_nonneg].
Qed.

Lemma scan_online_min (h : host) (s : state) :
  let sc := scan_online h (fresh_count h s) (cpu_irq_last s) in
  (min_cpu sc = -1 ∧ min_irq sc = UINT_MAX ∧
   Forall (λ c, delta_of h s c = UINT_MAX) (online_cpus h)) ∨
  (min_irq sc < UINT_MAX ∧ min_irq sc = delta_of h s (min_cpu sc) ∧
   first_min (delta_of h s) (online_cpus h) (min_cpu sc)).
Proof.
  apply (run_min (fresh_count h s) (cpu_irq_last s));
    [apply online_cpus_NoDup | apply online_cpus_nonneg].
Qed.

Lemma first_max_elem d l c : first_max d l c → c ∈ l ∧ Forall (λ x, d x ≤ d c) l.
Proof.
  intros (pre & post & -> & Hpre & Hpost). split.
  - apply elem_of_app. right. left.
  - apply Forall_app. split; [|apply Forall_cons; split; [lia | done]].
    eapply Forall_impl; [exact Hpre|]. intros y Hy; cbv beta in *; lia.
Qed.

Lemma first_min_elem d l c : first_min d l c → c ∈ l ∧ Forall (λ x, d c ≤ d x) l.
Proof.
  intros (pre & post & -> & Hpre & Hpost). split.
  - apply elem_of_app. right. left.
  - apply Forall_app. split; [|apply Forall_cons; split; [lia | done]].
    eapply Forall_impl; [exact Hpre|]. intros y Hy; cbv beta in *; lia.
Qed.

(** ** The migrator *)

Lemma migrate_loop_full (h : host) to fuel irq mig :
  MAX_IRQ_MIGRATE_PER_TICK ≤ mig →
  migrate_loop h to fuel irq mig =
  {| affinity_sets := []; migrated := mig; irq_exit := irq |}.
Proof.
  intros Hm. destruct fuel as [|fuel]; [done|]. cbn [migrate_loop].
  by rewrite (proj2 (Z.leb_le _ _) Hm).
Qed.

Lemma migrate_loop_spec (h : host) to fuel irq mig :
  let r := migrate_loop h to fuel irq mig in
  migrated r = mig + Z.of_nat (length (affinity_sets r)) ∧
  (mig ≤ MAX_IRQ_MIGRATE_PER_TICK → migrated r ≤ MAX_IRQ_MIGRATE_PER_TICK) ∧
  irq ≤ irq_exit r ≤ irq + Z.of_nat fuel ∧
  Forall (λ p, irq ≤ p.1 < irq_exit r ∧ p.2 = to ∧ eligible h to p.1 = true)
         (affinity_sets r) ∧
  (mig < MAX_IRQ_MIGRATE_PER_TICK → migrated r = MAX_IRQ_MIGRATE_PER_TICK →
   ∃ front, affinity_sets r = front ++ [(irq_exit r - 1, to)]).
Proof.
  revert irq mig. induction fuel as [|fuel IH]; intros irq mig.
  - cbn. split_and!; [lia | done | lia | lia | done | lia].
  - cbn [migrate_loop]. unfold MAX_IRQ_MIGRATE_PER_TICK in *.
    destruct (5 <=? mig) eqn:Hfull.
    + apply Z.leb_le in Hfull. cbn. split_and!; [lia | done | lia | lia | done | lia].
    + apply Z.leb_gt in Hfull.
      assert (∀ r : migration,
        (let r := r in
         migrated r = mig + Z.of_nat (length (affinity_sets r)) ∧
         (mig ≤ 5 → migrated r ≤ 5) ∧
         irq + 1 ≤ irq_exit r ≤ irq + 1 + Z.of_nat fuel ∧
         Forall (λ p, irq + 1 ≤ p.1 < irq_exit r ∧ p.2 = to ∧ eligible h to p.1 = true)
                (affinity_sets r) ∧
         (mig < 5 → migrated r = 5 →
          ∃ front, affinity_sets r = front ++ [(irq_exit r - 1, to)])) →
        (let r := r in
         migrated r = mig + Z.of_nat (length (affinity_sets r)) ∧
         (mig ≤ 5 → migrated r ≤ 5) ∧
         irq ≤ irq_exit r ≤ irq + Z.of_nat (S fuel) ∧
         Forall (λ p, irq ≤ p.1 < irq_exit r ∧ p.2 = to ∧ eligible h to p.1 = true)
                (affinity_sets r) ∧
         (mig < 5 → migrated r = 5 →
          ∃ front, affinity_sets r = front ++ [(irq_exit r - 1, to)]))) as Hskip.
      { intros r (H1 & H2 & H3 & H4 & H5). split_and!; [done | done | lia | lia | | done].
        eapply Forall_impl; [exact H4|]. intros p (? & ? & ?). split_and!; [lia | lia | done | done]. }
      destruct (irq_can_set_affinity h irq) eqn:Hcan; cbn [negb]; [|apply Hskip, IH].
      destruct (is_irq_blacklisted h irq) eqn:Hbl; [apply Hskip, IH|].
      destruct (cpu_is_idle_wrap h to) eqn:Hidle; [apply Hskip, IH|].
      destruct (IH (irq + 1) (mig + 1)) as (H1 & H2 & H3 & H4 & H5).
      cbn [affinity_sets migrated irq_exit length]. split_and!.
      * lia.
      * lia.
      * lia.
      * lia.
      * apply Forall_cons. split.
        -- cbn. unfold eligible. rewrite Hcan, Hbl, Hidle. split_and!; [lia | lia | done | done].
        -- eapply Forall_impl; [exact H4|]. intros p (? & ? & ?).
           split_and!; [lia | lia | done | done].
      * intros _ Hfive. destruct (decide (mig + 1 = 5)) as [Heq|Hne].
        -- rewrite migrate_loop_full in * by (unfold MAX_IRQ_MIGRATE_PER_TICK; lia).
           cbn. exists []. cbn. do 2 f_equal. lia.
        -- destruct H5 as [front Hf]; [lia | done |].
           exists ((irq, to) :: front). by rewrite Hf.
Qed.

Lemma migrate_loop_first_fit (h : host) to fuel irq mig :
  affinity_sets (migrate_loop h to fuel irq mig) =
  (λ i, (i, to)) <$>
    take (Z.to_nat (MAX_IRQ_MIGRATE_PER_TICK - mig))
         (filter (λ i, Is_true (eligible h to i)) (seqZ irq (Z.of_nat fuel))).
Proof.
  revert irq mig. induction fuel as [|fuel IH]; intros irq mig.
  - cbn [migrate_loop affinity_sets]. rewrite seqZ_nil by lia.
    by rewrite filter_nil, take_nil.
  - cbn [migrate_loop]. unfold MAX_IRQ_MIGRATE_PER_TICK in *.
    rewrite seqZ_cons by lia.
    replace (Z.pred (Z.of_nat (S fuel))) with (Z.of_nat fuel) by lia.
    replace (Z.succ irq) with (irq + 1) by lia.
    rewrite filter_cons.
    destruct (5 <=? mig) eqn:Hfull.
    + apply Z.leb_le in Hfull. replace (Z.to_nat (5 - mig)) with 0%nat by lia.
      by rewrite take_0.
    + apply Z.leb_gt in Hfull.
      replace (Z.to_nat (5 - mig)) with (S (Z.to_nat (5 - (mig + 1)))) by lia.
      case_decide as He; unfold eligible in He;
        destruct (irq_can_set_affinity h irq), (is_irq_blacklisted h irq),
                 (cpu_is_idle_wrap h to) eqn:Hidle;
        cbn in He; try done; cbn [negb];
        rewrite ?IH, ?Hidle; try done;
        by replace (S (Z.to_nat (5 - (mig + 1)))) with (Z.to_nat (5 - mig)) by lia.
Qed.

(** ** One tick, the guard and the module life cycle *)

Lemma tick_enabled (h : host) (s : state) (o : outcome) :
  exoticbalance_enabled s = true →
  exotic_balance_irq h s = Some o →
  let sc := scan_online h (fresh_count h s) (cpu_irq_last s) in
  let davg := average (delta_sum sc) (num_online_cpus h) in
  0 < num_online_cpus h ∧
  o = {| st := {| exoticbalance_enabled := true;
                  cpu_irq_count := fresh_count h s;
                  cpu_irq_last := scan_last sc;
                  heavy_tick := negb (heavy_tick s) |};
         found := sc;
         delta_avg := davg;
         migrator_call := if authorized h sc davg
                          then Some (max_cpu sc, min_cpu sc) else None;
         moved := if authorized h sc davg
                  then affinity_sets (migrate_irqs_limited h (max_cpu sc) (min_cpu sc) 0)
                  else [];
         delay_ms := schedule_next h (max_cpu sc) |}.
Proof.
  intros Hon Htick. unfold exotic_balance_irq in Htick.
  rewrite Hon in Htick. cbn [negb] in Htick. fold (fresh_count h s) in Htick.
  destruct (num_online_cpus h =? 0) eqn:Hz; [done|].
  apply Z.eqb_neq in Hz. pose proof (num_online_cpus_nonneg h).
  injection Htick as <-. split; [lia | done].
Qed.

Lemma tick_runs (h : host) (s : state) :
  exoticbalance_enabled s = true → 0 < num_online_cpus h →
  is_Some (exotic_balance_irq h s).
Proof.
  intros Hon Hcpus. unfold exotic_balance_irq. rewrite Hon. cbn [negb].
  destruct (num_online_cpus h =? 0) eqn:Hz; [apply Z.eqb_eq in Hz; lia | eauto].
Qed.

Lemma authorized_found (h : host) (sc : scan) (davg : Z) :
  authorized h sc davg = true →
  0 ≤ max_cpu sc ∧ 0 ≤ min_cpu sc ∧ max_cpu sc ≠ min_cpu sc.
Proof.
  unfold authorized. rewrite !andb_true_iff.
  intros [[[Ha Hb] Hc] _].
  apply Z.leb_le in Ha, Hb. apply negb_true_iff, Z.eqb_neq in Hc. done.
Qed.

Lemma deltas_nonneg (h : host) (s : state) : Forall (λ x, 0 ≤ x) (deltas h s).
Proof.
  unfold deltas. apply Forall_fmap, Forall_forall. intros c _. cbn.
  apply u32_range.
Qed.

Lemma u32_le (x : Z) : 0 ≤ x → u32 x ≤ x.
Proof. intros. unfold u32. apply Z.mod_le; lia. Qed.

Lemma s32_le_u32 (x : Z) : s32 x ≤ u32 x.
Proof.
  pose proof (u32_s32 x) as H. pose proof (s32_range x) as Hr.
  destruct (decide (0 ≤ s32 x)) as [Hp|Hn].
  - rewrite u32_small in H by lia. lia.
  - pose proof (u32_range x). lia.
Qed.

Lemma is_cpu_big_fast (h : host) (cpu : Z) : is_cpu_big h cpu = true ↔ fast h cpu.
Proof.
  unfold is_cpu_big, get_cpu_max_freq, fast. rewrite Z.leb_le.
  destruct (cpufreq_cpu_get h cpu) as [p|].
  - split; [by eauto | by intros (? & [= <-] & ?)].
  - split; [lia | by intros (? & ? & _)].
Qed.

Lemma is_cpu_big_slow (h : host) (cpu : Z) : is_cpu_big h cpu = false ↔ ¬ fast h cpu.
Proof. rewrite <- is_cpu_big_fast. by destruct (is_cpu_big h cpu). Qed.

Lemma two_elements (l : list Z) (x y : Z) : x ∈ l → y ∈ l → x ≠ y → (2 ≤ length l)%nat.
Proof.
  intros Hx Hy Hne. destruct l as [|a [|b l]]; cbn; [| |lia].
  - by apply elem_of_nil in Hx.
  - apply list_elem_of_singleton in Hx, Hy. congruence.
Qed.

(** When both extremes were found at different CPUs, none of the conversions
    in the guard changes a value. *)
Lemma found_distinct_facts (h : host) (s : state) :
  let sc := scan_online h (fresh_count h s) (cpu_irq_last s) in
  0 ≤ max_cpu sc → 0 ≤ min_cpu sc → max_cpu sc ≠ min_cpu sc →
  2 ≤ num_online_cpus h ∧
  0 ≤ min_irq sc ≤ max_irq sc ∧ max_irq sc ≤ UINT_MAX ∧
  first_max (delta_of h s) (online_cpus h) (max_cpu sc) ∧
  first_min (delta_of h s) (online_cpus h) (min_cpu sc) ∧
  max_irq sc = delta_of h s (max_cpu sc) ∧
  min_irq sc = delta_of h s (min_cpu sc).
Proof.
  intros sc Hmax Hmin Hne.
  destruct (scan_online_max h s) as [(Hm & _) | (_ & Hmx & Hfm)];
    [fold sc in Hm; lia|].
  destruct (scan_online_min h s) as [(Hm & _) | (_ & Hmn & Hfn)];
    [fold sc in Hm; lia|].
  fold sc in Hmx, Hfm, Hmn, Hfn.
  pose proof (first_max_elem _ _ _ Hfm) as [Hin Hall].
  pose proof (first_min_elem _ _ _ Hfn) as [Hin' _].
  rewrite Forall_forall in Hall. pose proof (Hall _ Hin') as Hle. cbv beta in Hle.
  split_and!; try done.
  - unfold num_online_cpus. pose proof (two_elements _ _ _ Hin Hin' Hne). lia.
  - rewrite Hmn. apply u32_range.
  - lia.
  - rewrite Hmx. apply u32_le_max.
Qed.

Lemma guard_compare (ds n mx mn : Z) :
  2 ≤ n → 0 ≤ mn ≤ mx → mx ≤ UINT_MAX →
  (u32 (s32 (average ds n + MIN_DELTA_IRQS_BASE)) <=? u32 (mx - mn)) =
  (u32 ds `div` n + MIN_DELTA_IRQS_BASE <=? mx - mn).
Proof.
  intros Hn Hm Hx. unfold average, MIN_DELTA_IRQS_BASE, UINT_MAX in *.
  pose proof (u32_range ds) as Hu.
  assert (0 ≤ u32 ds `div` n < 2147483648) as Hq.
  { split; [apply Z.div_pos; lia|].
    apply Z.div_lt_upper_bound; lia. }
  rewrite (s32_small (u32 ds `div` n)) by lia.
  rewrite u32_s32, u32_small by lia. by rewrite (u32_small (mx - mn)) by lia.
Qed.

Lemma init_return (h : host) (ok1 ok2 : bool) (k : kernel) :
  (exoticbalance_init h ok1 ok2 k).1 = if ok1 && ok2 then 0 else - ENOMEM.
Proof. unfold exoticbalance_init, kzalloc. by destruct ok1, ok2. Qed.

Lemma init_success (h : host) (k : kernel) :
  let k' := (exoticbalance_init h true true k).2 in
  ptr_count k' = Some (knext k) ∧ ptr_last k' = Some (S (knext k)) ∧
  kheap k' !! knext k = Some (cpu_irq_count (initial_state h)) ∧
  kheap k' !! S (knext k) = Some (cpu_irq_last (initial_state h)) ∧
  work_pending k' = Some LIGHT_INTERVAL_MS.
Proof.
  cbn. split_and!; try done.
  - rewrite lookup_insert_ne by lia. apply lookup_insert_eq.
  - apply lookup_insert_eq.
Qed.

Lemma exit_releases (h : host) (k : kernel) :
  let k' := exoticbalance_exit (exoticbalance_init h true true k).2 in
  kheap k' !! knext k = None ∧ kheap k' !! S (knext k) = None ∧
  work_pending k' = None.
Proof.
  cbn. split_and!; [|apply lookup_delete_eq|done].
  rewrite lookup_delete_ne by lia. apply lookup_delete_eq.
Qed.

(** * The claims of the specification *)

(** ** The migration decision *)

(** C1 (as amended): on an executed tick the migrator is called, from
    [max_cpu] to [min_cpu], exactly when both were found and differ,
    [max_irq - min_irq] is at least the average plus 800, [min_cpu] is slow
    and [max_cpu] fast, and the temperature is below 70, where the average is
    [delta_sum] read as an unsigned 32-bit value, that is the sum of the
    deltas modulo 2^32, divided by the number of online CPUs.  The CPUs it is
    called with are the first online CPUs of greatest and of least delta.
    As long as the deltas add up to less than 2^31, [delta_sum] is their sum
    and the average is its floor average. *)
Theorem migration_decision (h : host) (s : state) (o : outcome) :
  exoticbalance_enabled s = true →
  exotic_balance_irq h s = Some o →
  (migrator_call o = Some (max_cpu (found o), min_cpu (found o)) ∨
   migrator_call o = None) ∧
  (migrator_call o = Some (max_cpu (found o), min_cpu (found o)) ↔
   conditions_as_specified h (found o) (u32 (delta_sum (found o)))) ∧
  u32 (delta_sum (found o)) = sumZ (deltas h s) `mod` 4294967296 ∧
  (migrator_call o = Some (max_cpu (found o), min_cpu (found o)) →
   first_max (delta_of h s) (online_cpus h) (max_cpu (found o)) ∧
   first_min (delta_of h s) (online_cpus h) (min_cpu (found o)) ∧
   max_irq (found o) = delta_of h s (max_cpu (found o)) ∧
   min_irq (found o) = delta_of h s (min_cpu (found o))) ∧
  (sumZ (deltas h s) < 2147483648 →
   delta_sum (found o) = sumZ (deltas h s) ∧
   (migrator_call o = Some (max_cpu (found o), min_cpu (found o)) ↔
    conditions_as_specified h (found o) (sumZ (deltas h s)))).
Proof.
  intros Hon Htick. destruct (tick_enabled h s o Hon Htick) as [Hn ->].
  cbn [found migrator_call]. clear Htick.
  pose proof (found_distinct_facts h s) as Hfacts. cbv zeta in Hfacts.
  pose proof (scan_online_delta_sum h s) as Hsum.
  remember (scan_online h (fresh_count h s) (cpu_irq_last s)) as sc eqn:Hsc.
  remember (average (delta_sum sc) (num_online_cpus h)) as davg eqn:Hdavg.
  assert (authorized h sc davg = true ↔
          conditions_as_specified h sc (u32 (delta_sum sc))) as Hiff.
  { unfold authorized, conditions_as_specified.
    rewrite !andb_true_iff, !Z.leb_le, negb_true_iff, Z.eqb_neq, Z.ltb_lt.
    rewrite negb_true_iff, is_cpu_big_slow, is_cpu_big_fast.
    split.
    - intros [[[Ha Hb] Hc] [[[Hd He] Hf] Hg]].
      destruct (Hfacts Ha Hb Hc) as (H2 & Hmn & Hmx & _).
      split_and!; try done.
      apply Z.leb_le. rewrite <- guard_compare by done.
      apply Z.leb_le. by rewrite <- Hdavg.
    - intros [(Ha & Hb & Hc) [Hd [[He Hf] Hg]]].
      destruct (Hfacts Ha Hb Hc) as (H2 & Hmn & Hmx & _).
      split_and!; try done.
      apply Z.leb_le. rewrite Hdavg, guard_compare by done.
      by apply Z.leb_le. }
  split_and!.
  - destruct (authorized h sc davg); auto.
  - rewrite <- Hiff. destruct (authorized h sc davg); [done|]. split; done.
  - by rewrite Hsum, u32_s32.
  - destruct (authorized h sc davg) eqn:Hgo; [|done]. intros _.
    apply authorized_found in Hgo as (Ha & Hb & Hc).
    destruct (Hfacts Ha Hb Hc) as (_ & _ & _ & ? & ? & ? & ?). done.
  - intros Hsmall.
    pose proof (sumZ_nonneg _ (deltas_nonneg h s)) as Hpos.
    assert (delta_sum sc = sumZ (deltas h s)) as Heq
      by (rewrite Hsum; apply s32_small; lia).
    split; [done|].
    assert (u32 (delta_sum sc) = sumZ (deltas h s)) as Hu
      by (rewrite Heq; apply u32_small; lia).
    rewrite <- Hu, <- Hiff. destruct (authorized h sc davg); [done|]. split; done.
Qed.

Lemma migration_decision_witness :
  (migrator_call demo_outcome =
     Some (max_cpu (found demo_outcome), min_cpu (found demo_outcome)) ∨
   migrator_call demo_outcome = None) ∧
  (migrator_call demo_outcome =
     Some (max_cpu (found demo_outcome), min_cpu (found demo_outcome)) ↔
   conditions_as_specified demo_host (found demo_outcome)
                           (u32 (delta_sum (found demo_outcome)))) ∧
  u32 (delta_sum (found demo_outcome)) =
    sumZ (deltas demo_host (initial_state demo_host)) `mod` 4294967296 ∧
  (migrator_call demo_outcome =
     Some (max_cpu (found demo_outcome), min_cpu (found demo_outcome)) →
   first_max (delta_of demo_host (initial_state demo_host)) (online_cpus demo_host)
             (max_cpu (found demo_outcome)) ∧
   first_min (delta_of demo_host (initial_state demo_host)) (online_cpus demo_host)
             (min_cpu (found demo_outcome)) ∧
   max_irq (found demo_outcome) =
     delta_of demo_host (initial_state demo_host) (max_cpu (found demo_outcome)) ∧
   min_irq (found demo_outcome) =
     delta_of demo_host (initial_state demo_host) (min_cpu (found demo_outcome))) ∧
  (sumZ (deltas demo_host (initial_state demo_host)) < 2147483648 →
   delta_sum (found demo_outcome) = sumZ (deltas demo_host (initial_state demo_host)) ∧
   (migrator_call demo_outcome =
      Some (max_cpu (found demo_outcome), min_cpu (found demo_outcome)) ↔
    conditions_as_specified demo_host (found demo_outcome)
                            (sumZ (deltas demo_host (initial_state demo_host))))).
Proof.
  apply (migration_decision demo_host (initial_state demo_host) demo_outcome).
  - reflexivity.
  - vm_compute. reflexivity.
Defined.

(** C1 (as stated) fails once the sum of the deltas leaves the range of an
    [int].  On the first tick on [uptime_board] the deltas are 2^31 and 2^30,
    [delta_sum] is the [int] -2^30, and the four conditions hold for its
    floor average, yet the migrator is not called.  On [flood_board] the
    deltas add up to more than 2^32 and the migrator is called although the
    difference is below the floor average of their sum plus 800. *)
Lemma wrapped_sum_decides :
  (∃ o, exotic_balance_irq uptime_board (initial_state uptime_board) = Some o ∧
        exoticbalance_enabled (initial_state uptime_board) = true ∧
        delta_sum (found o) = -1073741824 ∧
        conditions_as_specified uptime_board (found o) (delta_sum (found o)) ∧
        migrator_call o = None) ∧
  (∃ o, exotic_balance_irq flood_board (initial_state flood_board) = Some o ∧
        exoticbalance_enabled (initial_state flood_board) = true ∧
        migrator_call o = Some (0, 1) ∧
        ¬ conditions_as_specified flood_board (found o)
            (sumZ (deltas flood_board (initial_state flood_board)))).
Proof.
  split.
  - eexists. split; [vm_compute; reflexivity|]. cbn [found migrator_call].
    split_and!; try reflexivity.
    unfold conditions_as_specified. cbn [max_cpu min_cpu max_irq min_irq delta_sum].
    rewrite <- is_cpu_big_slow, <- is_cpu_big_fast.
    split_and!; try (vm_compute; reflexivity); vm_compute; discriminate.
  - eexists. split; [vm_compute; reflexivity|]. cbn [found migrator_call].
    split_and!; try reflexivity.
    intros (_ & Hle & _). vm_compute in Hle. by apply Hle.
Qed.

(** ** The cap of the migrator *)

(** C2: one run of the migrator, started with a migrated count of zero as a
    tick does, sets the affinity of at most five lines, and when it has set
    five the loop is left at the line right after the fifth; a tick
    therefore moves at most five lines. *)
Theorem migrate_at_most_five (h : host) (from to : Z) :
  let r := migrate_irqs_limited h from to 0 in
  (length (affinity_sets r) ≤ 5)%nat ∧
  migrated r = Z.of_nat (length (affinity_sets r)) ∧
  (length (affinity_sets r) = 5%nat →
   ∃ front, affinity_sets r = front ++ [(irq_exit r - 1, to)]) ∧
  (∀ s o, exotic_balance_irq h s = Some o → (length (moved o) ≤ 5)%nat).
Proof.
  assert (∀ to', let r := migrate_irqs_limited h from to' 0 in
            (length (affinity_sets r) ≤ 5)%nat ∧
            migrated r = Z.of_nat (length (affinity_sets r)) ∧
            (length (affinity_sets r) = 5%nat →
             ∃ front, affinity_sets r = front ++ [(irq_exit r - 1, to')])) as Hrun.
  { intros to'. unfold migrate_irqs_limited.
    destruct (migrate_loop_spec h to' (Z.to_nat (nr_irqs h)) 0 0)
      as (Hm & Hcap & _ & _ & Hstop).
    unfold MAX_IRQ_MIGRATE_PER_TICK in *. cbv zeta.
    split_and!; [lia | lia |]. intros Hfive. apply Hstop; lia. }
  destruct (Hrun to) as (H1 & H2 & H3). split_and!; [done | done | done |].
  intros s o Htick. unfold exotic_balance_irq in Htick.
  destruct (negb (exoticbalance_enabled s)); [injection Htick as <-; cbn; lia|].
  destruct (num_online_cpus h =? 0); [done|]. injection Htick as <-. cbn [moved].
  destruct (authorized _ _ _); [|cbn; lia].
  unfold migrate_irqs_limited in *. apply Hrun.
Qed.

(** ** Protected lines *)

(** C3: whatever the sampling mode, no line that a tick moves is protected:
    a line whose handler name contains a blacklist entry is never among the
    affinity changes of the tick, whether or not its affinity can be set and
    whether or not the destination is idle. *)
Theorem protected_never_moved (h : host) (s : state) (o : outcome)
    (irq cpu : Z) (nm frag : string) :
  exotic_balance_irq h s = Some o →
  handler_name h irq = Some nm →
  frag ∈ irq_name_blacklist →
  occurs_in frag nm →
  (irq, cpu) ∉ moved o.
Proof.
  intros Htick Hname Hfrag Hocc Hin.
  assert (is_irq_blacklisted h irq = true) as Hbl
    by (apply is_irq_blacklisted_occurs; eauto).
  unfold exotic_balance_irq in Htick.
  destruct (negb (exoticbalance_enabled s));
    [injection Htick as <-; by apply elem_of_nil in Hin|].
  destruct (num_online_cpus h =? 0); [done|]. injection Htick as <-.
  cbn [moved] in Hin. destruct (authorized _ _ _); [|by apply elem_of_nil in Hin].
  unfold migrate_irqs_limited in Hin.
  destruct (migrate_loop_spec h (min_cpu (scan_online h
              (sample_all h (heavy_tick s) (memset_zero (cpu_irq_count s) (nr_cpu_ids h)))
              (cpu_irq_last s))) (Z.to_nat (nr_irqs h)) 0 0) as (_ & _ & _ & Hall & _).
  rewrite Forall_forall in Hall. destruct (Hall _ Hin) as (_ & _ & Hel).
  cbn in Hel. unfold eligible in Hel. rewrite Hbl in Hel.
  by destruct (irq_can_set_affinity h irq).
Qed.

Lemma protected_never_moved_witness : (1, 1) ∉ moved demo_outcome.
Proof.
  apply (protected_never_moved demo_host (initial_state demo_host) demo_outcome
           1 1 "synaptics_ts" "synaptics").
  - vm_compute. reflexivity.
  - reflexivity.
  - unfold irq_name_blacklist. set_solver.
  - exists EmptyString, "_ts"%string. reflexivity.
Defined.

(** ** Skipped ticks *)

(** C4: with the enable flag off a tick leaves the counter arrays, the last
    sample and the sampling mode as they were, calls no migrator and changes
    no affinity, and still schedules the next tick; with the flag on (and a
    CPU online) it completes and flips the sampling mode. *)
Theorem disabled_tick_frame (h : host) (s : state) :
  (exoticbalance_enabled s = false →
   ∃ o, exotic_balance_irq h s = Some o ∧ st o = s ∧
        migrator_call o = None ∧ moved o = [] ∧
        (delay_ms o = LIGHT_INTERVAL_MS ∨ delay_ms o = HEAVY_INTERVAL_MS)) ∧
  (exoticbalance_enabled s = true → 0 < num_online_cpus h →
   ∃ o, exotic_balance_irq h s = Some o ∧
        heavy_tick (st o) = negb (heavy_tick s) ∧
        exoticbalance_enabled (st o) = true ∧
        (delay_ms o = LIGHT_INTERVAL_MS ∨ delay_ms o = HEAVY_INTERVAL_MS)).
Proof.
  assert (∀ c, schedule_next h c = LIGHT_INTERVAL_MS ∨ schedule_next h c = HEAVY_INTERVAL_MS)
    as Hsched by (intros c; unfold schedule_next; destruct (cpu_is_idle_wrap h c); auto).
  split.
  - intros Hoff. unfold exotic_balance_irq. rewrite Hoff. cbn [negb].
    eexists. split; [done|]. cbn. split_and!; [done | done | done | apply Hsched].
  - intros Hon Hcpus. unfold exotic_balance_irq. rewrite Hon. cbn [negb].
    destruct (num_online_cpus h =? 0) eqn:Hz; [apply Z.eqb_eq in Hz; lia|].
    eexists. split; [done|]. cbn. split_and!; [done | done | apply Hsched].
Qed.

Lemma disabled_tick_frame_witness :
  (∃ o, exotic_balance_irq demo_host (set_enabled false (st demo_outcome)) = Some o ∧
        st o = set_enabled false (st demo_outcome) ∧
        migrator_call o = None ∧ moved o = [] ∧
        (delay_ms o = LIGHT_INTERVAL_MS ∨ delay_ms o = HEAVY_INTERVAL_MS)) ∧
  (∃ o, exotic_balance_irq demo_host (initial_state demo_host) = Some o ∧
        heavy_tick (st o) = negb (heavy_tick (initial_state demo_host)) ∧
        exoticbalance_enabled (st o) = true ∧
        (delay_ms o = LIGHT_INTERVAL_MS ∨ delay_ms o = HEAVY_INTERVAL_MS)).
Proof.
  split.
  - apply (disabled_tick_frame demo_host (set_enabled false (st demo_outcome))).
    reflexivity.
  - apply (disabled_tick_frame demo_host (initial_state demo_host)).
    + reflexivity.
    + vm_compute. reflexivity.
Defined.

(** ** Rescheduling *)

(** C5 (as amended): after every tick the delay is the long interval when the
    idle query answers yes for the value [max_cpu] holds at [schedule_next],
    and the short interval otherwise.  On an executed tick that value is the
    first online CPU with the greatest delta, or -1 when all deltas are zero;
    on a skipped tick it is -1, whatever an earlier tick found. *)
Theorem delay_follows_max_cpu (h : host) (s : state) (o : outcome) :
  exotic_balance_irq h s = Some o →
  delay_ms o = (if cpu_is_idle_wrap h (max_cpu (found o)) then HEAVY_INTERVAL_MS
                else LIGHT_INTERVAL_MS) ∧
  if exoticbalance_enabled s then
    (max_cpu (found o) = -1 ∧ Forall (λ c, delta_of h s c = 0) (online_cpus h)) ∨
    (0 < delta_of h s (max_cpu (found o)) ∧
     first_max (delta_of h s) (online_cpus h) (max_cpu (found o)))
  else max_cpu (found o) = -1.
Proof.
  intros Htick. destruct (exoticbalance_enabled s) eqn:Hon.
  - destruct (tick_enabled h s o Hon Htick) as [_ ->]. cbn [found delay_ms].
    split; [done|].
    destruct (scan_online_max h s) as [(? & _ & ?) | (Hpos & Heq & Hfm)]; [by left|].
    right. split; [|done]. cbv zeta in Heq. by rewrite <- Heq.
  - unfold exotic_balance_irq in Htick. rewrite Hon in Htick.
    by injection Htick as <-.
Qed.

Lemma delay_follows_max_cpu_witness :
  delay_ms demo_outcome =
    (if cpu_is_idle_wrap demo_host (max_cpu (found demo_outcome)) then HEAVY_INTERVAL_MS
     else LIGHT_INTERVAL_MS) ∧
  ((max_cpu (found demo_outcome) = -1 ∧
    Forall (λ c, delta_of demo_host (initial_state demo_host) c = 0) (online_cpus demo_host)) ∨
   (0 < delta_of demo_host (initial_state demo_host) (max_cpu (found demo_outcome)) ∧
    first_max (delta_of demo_host (initial_state demo_host)) (online_cpus demo_host)
              (max_cpu (found demo_outcome)))).
Proof.
  apply (delay_follows_max_cpu demo_host (initial_state demo_host) demo_outcome).
  vm_compute. reflexivity.
Defined.

(** C5 (as stated) fails on a skipped tick: on [idle_board] the first tick
    finds CPU0 busiest, CPU0 is idle, and yet the skipped tick that follows
    schedules the short interval, because it asks the idle query about -1. *)
Lemma skipped_tick_forgets_busiest :
  ∃ o1 o2,
    exotic_balance_irq idle_board (initial_state idle_board) = Some o1 ∧
    max_cpu (found o1) = 0 ∧
    cpu_is_idle_wrap idle_board 0 = true ∧
    exotic_balance_irq idle_board (set_enabled false (st o1)) = Some o2 ∧
    delay_ms o2 = LIGHT_INTERVAL_MS ∧
    delay_ms o2 ≠ HEAVY_INTERVAL_MS.
Proof.
  do 2 eexists.
  split; [vm_compute; reflexivity|].
  split; [reflexivity|].
  split; [reflexivity|].
  split; [vm_compute; reflexivity|].
  split; [reflexivity | discriminate].
Qed.

(** ** The last sample *)

(** C6 (as amended): an executed tick recomputes [cpu_irq_count] from zeros,
    independently of its previous content, and leaves [cpu_irq_last] equal to
    it at every online CPU, whatever the migration decision; at an offline
    CPU id the count is zero and the last sample keeps its previous value.
    A skipped tick changes neither array. *)
Theorem last_sample_follows_online (h : host) (s : state) (o : outcome) :
  state_wf h s →
  exotic_balance_irq h s = Some o →
  if exoticbalance_enabled s then
    cpu_irq_count (st o) =
      sample_all h (heavy_tick s) (replicate (Z.to_nat (nr_cpu_ids h)) 0) ∧
    (∀ c, c ∈ online_cpus h →
          aget (cpu_irq_count (st o)) c = u32 (line_total h (heavy_tick s) c) ∧
          aget (cpu_irq_last (st o)) c = aget (cpu_irq_count (st o)) c) ∧
    (∀ c, 0 ≤ c < nr_cpu_ids h → c ∉ online_cpus h →
          aget (cpu_irq_count (st o)) c = 0 ∧
          aget (cpu_irq_last (st o)) c = aget (cpu_irq_last s) c) ∧
    state_wf h (st o)
  else
    cpu_irq_count (st o) = cpu_irq_count s ∧ cpu_irq_last (st o) = cpu_irq_last s.
Proof.
  intros Hwf Htick. destruct (exoticbalance_enabled s) eqn:Hon.
  - destruct (tick_enabled h s o Hon Htick) as [_ ->]. cbn [st cpu_irq_count cpu_irq_last].
    destruct Hwf as [Hc Hl]. split_and!.
    + unfold fresh_count. by rewrite memset_zero_wf.
    + intros c Hin. pose proof Hin as [Hr _]%online_cpus_range.
      split; [by apply fresh_count_online|].
      rewrite scan_online_last_get by lia. by rewrite decide_True.
    + intros c Hr Hoff. split; [by apply fresh_count_offline|].
      rewrite scan_online_last_get by lia. by rewrite decide_False.
    + split; cbn.
      * apply fresh_count_length_wf. by split.
      * by rewrite scan_online_last_length.
  - unfold exotic_balance_irq in Htick. rewrite Hon in Htick.
    by injection Htick as <-.
Qed.

Lemma last_sample_follows_online_witness :
  cpu_irq_count (st demo_outcome) =
    sample_all demo_host false (replicate (Z.to_nat (nr_cpu_ids demo_host)) 0) ∧
  (∀ c, c ∈ online_cpus demo_host →
        aget (cpu_irq_count (st demo_outcome)) c = u32 (line_total demo_host false c) ∧
        aget (cpu_irq_last (st demo_outcome)) c = aget (cpu_irq_count (st demo_outcome)) c) ∧
  (∀ c, 0 ≤ c < nr_cpu_ids demo_host → c ∉ online_cpus demo_host →
        aget (cpu_irq_count (st demo_outcome)) c = 0 ∧
        aget (cpu_irq_last (st demo_outcome)) c =
          aget (cpu_irq_last (initial_state demo_host)) c) ∧
  state_wf demo_host (st demo_outcome).
Proof.
  apply (last_sample_follows_online demo_host (initial_state demo_host) demo_outcome).
  - split; reflexivity.
  - vm_compute. reflexivity.
Defined.

(** C6 (as stated) fails at an offline CPU id: after CPU1 of [demo_host] is
    unplugged, the next tick leaves [cpu_irq_last[1]] at the 100 sampled
    before, while [cpu_irq_count[1]] is the fresh zero. *)
Lemma offline_cpu_keeps_last_sample :
  ∃ o, exotic_balance_irq (unplug_cpu1 demo_host) (st demo_outcome) = Some o ∧
       exoticbalance_enabled (st demo_outcome) = true ∧
       0 ≤ 1 < nr_cpu_ids (unplug_cpu1 demo_host) ∧
       aget (cpu_irq_count (st o)) 1 = 0 ∧
       aget (cpu_irq_last (st o)) 1 = 100 ∧
       aget (cpu_irq_last (st o)) 1 ≠ aget (cpu_irq_count (st o)) 1.
Proof.
  eexists. split; [vm_compute; reflexivity|].
  vm_compute. split_and!; (reflexivity || discriminate).
Qed.

(** ** Blacklist classification *)

(** C7: a line is classified protected exactly when its handler name is
    present and contains, as a case-sensitive substring, an entry of
    [irq_name_blacklist]; a line without descriptor, without handler or
    without name is unprotected; and the classification depends on the host
    only through that name. *)
Theorem blacklist_classification (h : host) (irq : Z) :
  (is_irq_blacklisted h irq = true ↔
   ∃ nm frag, handler_name h irq = Some nm ∧
              frag ∈ irq_name_blacklist ∧ occurs_in frag nm) ∧
  (irq_to_desc h irq = None ∨
   (∃ d, irq_to_desc h irq = Some d ∧
         (action d = None ∨ ∃ a, action d = Some a ∧ name a = None)) →
   is_irq_blacklisted h irq = false) ∧
  (∀ h' irq', handler_name h' irq' = handler_name h irq →
              is_irq_blacklisted h' irq' = is_irq_blacklisted h irq).
Proof.
  split_and!.
  - apply is_irq_blacklisted_occurs.
  - unfold is_irq_blacklisted.
    intros [-> | (d & -> & [-> | (a & -> & ->)])]; done.
  - intros h' irq' Hname. by rewrite !is_irq_blacklisted_name, Hname.
Qed.

(** ** Allocation failure at start *)

(** C8: evaluation of [exoticbalance_init] when the first allocation
    succeeds and the second fails.  The start fails with [-ENOMEM], but the
    block of the first array is still live in the kernel heap, and nothing
    is scheduled that would ever release it. *)
Theorem init_failure_keeps_first_array (h : host) (k : kernel) :
  let '(rc, k') := exoticbalance_init h true false k in
  rc = - ENOMEM ∧
  ptr_count k' = Some (knext k) ∧ ptr_last k' = None ∧
  kheap k' !! knext k = Some (replicate (Z.to_nat (nr_cpu_ids h)) 0) ∧
  work_pending k' = work_pending k.
Proof.
  cbn. split_and!; try done. apply lookup_insert_eq.
Qed.

(** ** The average *)

(** C9: on an executed tick, [delta_avg] times the number of online CPUs
    is at most the sum of the deltas of the online CPUs, [delta_avg] being
    what the code's division makes of that sum: the sum reduced to 32 bits,
    divided unsigned by the number of online CPUs.  The product is also at
    most [delta_sum] read as an unsigned 32-bit value, and at most the
    stored signed [delta_sum] whenever that is not negative. *)
Theorem average_times_count (h : host) (s : state) (o : outcome) :
  exoticbalance_enabled s = true →
  exotic_balance_irq h s = Some o →
  delta_avg o * num_online_cpus h ≤ sumZ (deltas h s) ∧
  delta_avg o = average (sumZ (deltas h s)) (num_online_cpus h) ∧
  delta_avg o * num_online_cpus h ≤ u32 (delta_sum (found o)) ∧
  u32 (delta_sum (found o)) ≤ sumZ (deltas h s) ∧
  (0 ≤ delta_sum (found o) →
   delta_avg o * num_online_cpus h ≤ delta_sum (found o)).
Proof.
  intros Hon Htick. destruct (tick_enabled h s o Hon Htick) as [Hn ->].
  cbn [found delta_avg]. clear Htick.
  remember (scan_online h (fresh_count h s) (cpu_irq_last s)) as sc eqn:Hsc.
  assert (delta_sum sc = s32 (sumZ (deltas h s))) as Hsum
    by (subst sc; apply scan_online_delta_sum).
  assert (average (delta_sum sc) (num_online_cpus h) * num_online_cpus h
          ≤ u32 (delta_sum sc)) as Havg.
  { unfold average. pose proof (u32_range (delta_sum sc)) as Hu.
    set (q := u32 (delta_sum sc) `div` num_online_cpus h).
    assert (0 ≤ q) by (apply Z.div_pos; lia).
    assert (q * num_online_cpus h ≤ u32 (delta_sum sc))
      by (rewrite Z.mul_comm; apply Z.mul_div_le; lia).
    pose proof (s32_le_u32 q). rewrite (u32_small q) in * by lia. nia. }
  assert (u32 (delta_sum sc) ≤ sumZ (deltas h s)) as Hle
    by (rewrite Hsum, u32_s32; apply u32_le, sumZ_nonneg, deltas_nonneg).
  split_and!; [lia | | done | done |].
  - unfold average. by rewrite Hsum, u32_s32.
  - intros Hpos. pose proof (s32_range (sumZ (deltas h s))).
    rewrite u32_small in Havg by lia. done.
Qed.

Lemma average_times_count_witness :
  delta_avg demo_outcome * num_online_cpus demo_host
    ≤ sumZ (deltas demo_host (initial_state demo_host)) ∧
  delta_avg demo_outcome =
    average (sumZ (deltas demo_host (initial_state demo_host)))
            (num_online_cpus demo_host) ∧
  delta_avg demo_outcome * num_online_cpus demo_host
    ≤ u32 (delta_sum (found demo_outcome)) ∧
  u32 (delta_sum (found demo_outcome))
    ≤ sumZ (deltas demo_host (initial_state demo_host)) ∧
  (0 ≤ delta_sum (found demo_outcome) →
   delta_avg demo_outcome * num_online_cpus demo_host
     ≤ delta_sum (found demo_outcome)).
Proof.
  apply (average_times_count demo_host (initial_state demo_host) demo_outcome).
  - reflexivity.
  - vm_compute. reflexivity.
Defined.

(** The signed value of the stored [delta_sum] is no such bound.  On the
    third tick after loading on [timer_board] the fine second tick has stored
    7 for CPU0, the coarse third tick samples 0, the delta wraps to 2^32 - 7,
    [delta_sum] is the [int] -7 and [delta_avg] is 2147483644, while the sum
    of the deltas is 2^32 - 7. *)
Lemma average_exceeds_stored_sum :
  ∃ o1 o2 o3,
    exotic_balance_irq timer_board (initial_state timer_board) = Some o1 ∧
    exotic_balance_irq timer_board (st o1) = Some o2 ∧
    exotic_balance_irq timer_board (st o2) = Some o3 ∧
    num_online_cpus timer_board = 2 ∧
    delta_sum (found o3) = -7 ∧
    delta_avg o3 = 2147483644 ∧
    sumZ (deltas timer_board (st o2)) = 4294967289 ∧
    ¬ (delta_avg o3 * num_online_cpus timer_board ≤ delta_sum (found o3)).
Proof.
  do 3 eexists.
  split; [vm_compute; reflexivity|].
  split; [vm_compute; reflexivity|].
  split; [vm_compute; reflexivity|].
  vm_compute. split_and!; try reflexivity. intros H. by apply H.
Qed.

(** ** A tick without load *)

(** C10: on an executed tick in which every online CPU has a delta of zero,
    [max_cpu] stays at -1 while [min_cpu] is the first online CPU; the
    migrator is not called, no affinity changes, and the delay is decided by
    the idle query on -1. *)
Theorem zero_deltas_no_busiest (h : host) (s : state) (c0 : Z) (rest : list Z) :
  exoticbalance_enabled s = true →
  online_cpus h = c0 :: rest →
  Forall (λ c, delta_of h s c = 0) (online_cpus h) →
  ∃ o, exotic_balance_irq h s = Some o ∧
       max_cpu (found o) = -1 ∧
       min_cpu (found o) = c0 ∧
       migrator_call o = None ∧ moved o = [] ∧
       delay_ms o = if cpu_is_idle_wrap h (-1) then HEAVY_INTERVAL_MS
                    else LIGHT_INTERVAL_MS.
Proof.
  intros Hon Hcpus Hzero.
  destruct (tick_runs h s Hon) as [o Htick];
    [unfold num_online_cpus; rewrite Hcpus; cbn; lia|].
  exists o. split; [done|].
  destruct (tick_enabled h s o Hon Htick) as [_ ->]. cbn [found migrator_call moved delay_ms].
  clear Htick.
  remember (scan_online h (fresh_count h s) (cpu_irq_last s)) as sc eqn:Hsc.
  assert (max_cpu sc = -1) as Hmax.
  { destruct (scan_online_max h s) as [(? & _) | (Hpos & Heq & Hfm)]; [by subst sc|].
    apply first_max_elem in Hfm as [Hin _].
    rewrite Forall_forall in Hzero.
    rewrite Heq, (Hzero _ Hin) in Hpos. lia. }
  assert (min_cpu sc = c0) as Hmin.
  { destruct (scan_online_min h s) as [(_ & _ & Hall) | (_ & _ & pre & post & Hl & Hpre & _)].
    - rewrite Hcpus in Hall, Hzero.
      apply Forall_cons in Hall as [Hc0 _]. apply Forall_cons in Hzero as [Hz0 _].
      rewrite Hz0 in Hc0. done.
    - rewrite <- Hsc in Hl, Hpre. destruct pre as [|p pre].
      + rewrite Hcpus in Hl. by injection Hl.
      + apply Forall_cons in Hpre as [Hp _].
        assert (p ∈ online_cpus h) as Hpin by (rewrite Hl; left).
        assert (min_cpu sc ∈ online_cpus h) as Hmin
          by (rewrite Hl; apply elem_of_app; right; left).
        rewrite Forall_forall in Hzero.
        rewrite (Hzero _ Hpin), (Hzero _ Hmin) in Hp. lia. }
  assert (authorized h sc (average (delta_sum sc) (num_online_cpus h)) = false) as Hno.
  { destruct (authorized _ _ _) eqn:Hgo; [|done].
    apply authorized_found in Hgo. lia. }
  rewrite Hno, Hmax. done.
Qed.

Lemma zero_deltas_no_busiest_witness :
  ∃ o, exotic_balance_irq quiet_board (initial_state quiet_board) = Some o ∧
       max_cpu (found o) = -1 ∧
       min_cpu (found o) = 0 ∧
       migrator_call o = None ∧ moved o = [] ∧
       delay_ms o = if cpu_is_idle_wrap quiet_board (-1) then HEAVY_INTERVAL_MS
                    else LIGHT_INTERVAL_MS.
Proof.
  apply (zero_deltas_no_busiest quiet_board (initial_state quiet_board) 0 [1]).
  - reflexivity.
  - vm_compute. reflexivity.
  - apply (bool_decide_unpack _). vm_compute. reflexivity.
Defined.

(** * Further properties of the code *)

(** ** The migrator *)

Lemma seqZ_to_nat (n : Z) : seqZ 0 (Z.of_nat (Z.to_nat n)) = seqZ 0 n.
Proof. unfold seqZ. by rewrite Nat2Z.id. Qed.

Lemma migrate_loop_exit (h : host) to fuel irq mig :
  migrated (migrate_loop h to fuel irq mig) < MAX_IRQ_MIGRATE_PER_TICK →
  irq_exit (migrate_loop h to fuel irq mig) = irq + Z.of_nat fuel.
Proof.
  revert irq mig. induction fuel as [|fuel IH]; intros irq mig; cbn [migrate_loop].
  - cbn. lia.
  - destruct (MAX_IRQ_MIGRATE_PER_TICK <=? mig) eqn:Hfull.
    + apply Z.leb_le in Hfull. cbn. lia.
    + destruct (negb (irq_can_set_affinity h irq));
        [intros Hm; rewrite IH by done; lia|].
      destruct (is_irq_blacklisted h irq);
        [intros Hm; rewrite IH by done; lia|].
      destruct (cpu_is_idle_wrap h to);
        [intros Hm; rewrite IH by done; lia|].
      cbn [migrated irq_exit]. intros Hm. rewrite IH by done. lia.
Qed.

(** X1: the migrator takes the lines in ascending order and moves exactly
    the first [5 - migrated] eligible ones to [to], whatever [from] is; its
    counter grows by their number, and while the counter stays below five
    the whole interrupt-line universe has been scanned. *)
Theorem migrate_first_fit (h : host) (from to mig : Z) :
  let r := migrate_irqs_limited h from to mig in
  affinity_sets r =
    (λ i, (i, to)) <$>
      take (Z.to_nat (MAX_IRQ_MIGRATE_PER_TICK - mig))
           (filter (λ i, Is_true (eligible h to i)) (seqZ 0 (nr_irqs h))) ∧
  migrated r = mig + Z.of_nat (length (affinity_sets r)) ∧
  (migrated r < MAX_IRQ_MIGRATE_PER_TICK → irq_exit r = Z.max 0 (nr_irqs h)).
Proof.
  cbv zeta. unfold migrate_irqs_limited. split_and!.
  - by rewrite migrate_loop_first_fit, seqZ_to_nat.
  - by destruct (migrate_loop_spec h to (Z.to_nat (nr_irqs h)) 0 mig) as (? & _).
  - intros Hm. rewrite migrate_loop_exit by done. lia.
Qed.

(** X2: every affinity change of a tick goes to [min_cpu], which the idle
    query reports as not idle, and concerns a line below [nr_irqs] whose
    affinity can be set; an idle destination receives nothing. *)
Theorem moved_to_busy_destination (h : host) (s : state) (o : outcome) (irq cpu : Z) :
  exotic_balance_irq h s = Some o →
  (irq, cpu) ∈ moved o →
  migrator_call o = Some (max_cpu (found o), cpu) ∧
  cpu = min_cpu (found o) ∧
  cpu_is_idle_wrap h cpu = false ∧
  irq_can_set_affinity h irq = true ∧
  0 ≤ irq < nr_irqs h.
Proof.
  intros Htick Hin. unfold exotic_balance_irq in Htick.
  destruct (negb (exoticbalance_enabled s));
    [injection Htick as <-; by apply elem_of_nil in Hin|].
  destruct (num_online_cpus h =? 0); [done|]. injection Htick as <-.
  cbn [moved found migrator_call] in *.
  destruct (authorized _ _ _); [|by apply elem_of_nil in Hin].
  unfold migrate_irqs_limited in Hin.
  match type of Hin with
  | _ ∈ affinity_sets (migrate_loop h ?to ?fuel 0 0) =>
      destruct (migrate_loop_spec h to fuel 0 0) as (_ & _ & Hexit & Hall & _)
  end.
  rewrite Forall_forall in Hall. destruct (Hall _ Hin) as (Hr & Hto & Hel).
  cbn in Hr, Hto, Hel. subst cpu. unfold eligible in Hel.
  apply andb_prop in Hel as [[Hcan Hbl]%andb_prop Hidle].
  apply negb_true_iff in Hidle. split_and!; try done; lia.
Qed.

Lemma moved_to_busy_destination_witness :
  migrator_call demo_outcome = Some (max_cpu (found demo_outcome), 1) ∧
  1 = min_cpu (found demo_outcome) ∧
  cpu_is_idle_wrap demo_host 1 = false ∧
  irq_can_set_affinity demo_host 3 = true ∧
  0 ≤ 3 < nr_irqs demo_host.
Proof.
  apply (moved_to_busy_destination demo_host (initial_state demo_host) demo_outcome 3 1).
  - vm_compute. reflexivity.
  - cbn. set_solver.
Defined.

(** ** The thermal guard *)

Lemma quot_1000_lt_70 (t : Z) : t `quot` 1000 < 70 ↔ t < 70000.
Proof.
  destruct (Z.le_gt_cases 0 t) as [Hpos|Hneg].
  - rewrite Z.quot_div_nonneg by lia.
    pose proof (Z.div_mod t 1000 ltac:(lia)).
    pose proof (Z.mod_pos_bound t 1000 ltac:(lia)). lia.
  - replace t with (- - t) at 1 by lia. rewrite Z.quot_opp_l by lia.
    pose proof (Z.quot_pos (- t) 1000 ltac:(lia) ltac:(lia)). lia.
Qed.

(** X3: [get_max_cpu_temp] fails open.  Without thermal support, without a
    "cpu-thermal" zone or when the zone stores no value it returns 0, which
    passes the guard; otherwise it returns the millidegree reading divided by
    1000 towards zero, and that is below 70 exactly when the reading is below
    70000. *)
Theorem thermal_guard_reading (h : host) :
  match thermal_reading h with
  | None => get_max_cpu_temp h = 0
  | Some t =>
      get_max_cpu_temp h = s32 t `quot` 1000 ∧
      (get_max_cpu_temp h < MAX_CPU_TEMP_THRESHOLD ↔ s32 t < 70000)
  end ∧
  (get_max_cpu_temp h <? MAX_CPU_TEMP_THRESHOLD) =
    match thermal_reading h with
    | None => true
    | Some t => s32 t <? 70000
    end.
Proof.
  unfold thermal_reading, get_max_cpu_temp, MAX_CPU_TEMP_THRESHOLD.
  destruct (config_thermal h); [|done].
  destruct (thermal_zone_get_zone_by_name h "cpu-thermal") as [tz|]; cbn; [|done].
  destruct (get_temp tz) as [t|]; cbn; [|done].
  split; [split; [done | apply quot_1000_lt_70]|].
  pose proof (quot_1000_lt_70 (s32 t)) as Hq.
  destruct (s32 t `quot` 1000 <? 70) eqn:H1, (s32 t <? 70000) eqn:H2; try done;
    rewrite ?Z.ltb_lt, ?Z.ltb_ge in *; lia.
Qed.

(** ** When the migrator is not called *)

Lemma tick_cases (h : host) (s : state) (o : outcome) :
  exotic_balance_irq h s = Some o →
  (migrator_call o = None ∧ moved o = []) ∨
  (exoticbalance_enabled s = true ∧
   found o = scan_online h (fresh_count h s) (cpu_irq_last s) ∧
   authorized h (found o) (delta_avg o) = true ∧
   migrator_call o = Some (max_cpu (found o), min_cpu (found o))).
Proof.
  intros Htick. destruct (exoticbalance_enabled s) eqn:Hon.
  - destruct (tick_enabled h s o Hon Htick) as [_ ->].
    cbn [found migrator_call moved delta_avg].
    destruct (authorized _ _ _) eqn:Hgo; [right | left]; done.
  - unfold exotic_balance_irq in Htick. rewrite Hon in Htick.
    injection Htick as <-. by left.
Qed.

Lemma authorized_classes (h : host) (sc : scan) (davg : Z) :
  authorized h sc davg = true →
  is_cpu_big h (min_cpu sc) = false ∧ is_cpu_big h (max_cpu sc) = true ∧
  get_max_cpu_temp h < MAX_CPU_TEMP_THRESHOLD.
Proof.
  unfold authorized. rewrite !andb_true_iff.
  intros [_ [[[_ Hmin] Hmax] Ht]].
  apply negb_true_iff in Hmin. apply Z.ltb_lt in Ht. done.
Qed.

(** What a call of the migrator tells about the scan. *)
Lemma called_facts (h : host) (s : state) (o : outcome) :
  exotic_balance_irq h s = Some o →
  migrator_call o ≠ None →
  2 ≤ num_online_cpus h ∧
  max_cpu (found o) ∈ online_cpus h ∧ min_cpu (found o) ∈ online_cpus h ∧
  max_cpu (found o) ≠ min_cpu (found o) ∧
  max_irq (found o) = delta_of h s (max_cpu (found o)) ∧
  min_irq (found o) = delta_of h s (min_cpu (found o)) ∧
  u32 (delta_sum (found o)) `div` num_online_cpus h + MIN_DELTA_IRQS_BASE
    ≤ max_irq (found o) - min_irq (found o) ∧
  is_cpu_big h (min_cpu (found o)) = false ∧
  is_cpu_big h (max_cpu (found o)) = true.
Proof.
  intros Htick Hcall.
  destruct (tick_cases h s o Htick) as [[? _] | (Hon & Hsc & Hgo & _)]; [done|].
  destruct (tick_enabled h s o Hon Htick) as [_ Ho].
  assert (delta_avg o = average (delta_sum (found o)) (num_online_cpus h)) as Havg
    by (rewrite Ho; done).
  pose proof (authorized_found _ _ _ Hgo) as (Ha & Hb & Hc).
  pose proof (authorized_classes _ _ _ Hgo) as (Hmin & Hmax & _).
  pose proof (found_distinct_facts h s) as Hfacts. cbv zeta in Hfacts.
  rewrite <- Hsc in Hfacts.
  destruct (Hfacts Ha Hb Hc) as (H2 & Hmn & Hmx & Hfm & Hfn & Hdm & Hdn).
  split_and!; try done.
  - by apply first_max_elem in Hfm as [? _].
  - by apply first_min_elem in Hfn as [? _].
  - unfold authorized in Hgo. rewrite !andb_true_iff in Hgo.
    destruct Hgo as [_ [[[Hcmp _] _] _]].
    rewrite Havg, guard_compare in Hcmp by done. by apply Z.leb_le.
Qed.

(** X4: with a single online CPU the migrator is never called and no
    affinity is changed. *)
Theorem single_cpu_never_migrates (h : host) (s : state) (o : outcome) :
  num_online_cpus h = 1 →
  exotic_balance_irq h s = Some o →
  migrator_call o = None ∧ moved o = [].
Proof.
  intros Hone Htick.
  destruct (tick_cases h s o Htick) as [? | (_ & _ & _ & Hcall)]; [done|].
  destruct (called_facts h s o Htick) as (H2 & _); [by rewrite Hcall | lia].
Qed.

Lemma single_cpu_never_migrates_witness :
  ∃ o, exotic_balance_irq (unplug_cpu1 demo_host) (initial_state demo_host) = Some o ∧
       migrator_call o = None ∧ moved o = [].
Proof.
  eexists. split; [vm_compute; reflexivity|].
  eapply (single_cpu_never_migrates (unplug_cpu1 demo_host) (initial_state demo_host)).
  - vm_compute. reflexivity.
  - vm_compute. reflexivity.
Defined.

(** X5: on a host whose online CPUs all fall into the same frequency class
    (all fast, or all slow, as when no frequency query succeeds) the
    migrator is never called. *)
Theorem same_class_never_migrates (h : host) (s : state) (o : outcome) (b : bool) :
  (∀ c, c ∈ online_cpus h → is_cpu_big h c = b) →
  exotic_balance_irq h s = Some o →
  migrator_call o = None ∧ moved o = [].
Proof.
  intros Hclass Htick.
  destruct (tick_cases h s o Htick) as [? | (_ & _ & _ & Hcall)]; [done|].
  destruct (called_facts h s o Htick)
    as (_ & Hmx & Hmn & _ & _ & _ & _ & Hslow & Hfast); [by rewrite Hcall|].
  rewrite (Hclass _ Hmx) in Hfast. rewrite (Hclass _ Hmn) in Hslow. congruence.
Qed.

Lemma same_class_never_migrates_witness :
  ∃ o, exotic_balance_irq (twin_board 2400000) (initial_state demo_host) = Some o ∧
       migrator_call o = None ∧ moved o = [].
Proof.
  eexists. split; [vm_compute; reflexivity|].
  eapply (same_class_never_migrates (twin_board 2400000) (initial_state demo_host) _ true).
  - intros c _. reflexivity.
  - vm_compute. reflexivity.
Defined.

(** X6: the migrator is called only when the greatest and the least delta
    of the online CPUs differ by at least 800; in particular never when all
    online CPUs have the same delta. *)
Theorem balanced_never_migrates (h : host) (s : state) (o : outcome) :
  exotic_balance_irq h s = Some o →
  (migrator_call o ≠ None →
   MIN_DELTA_IRQS_BASE ≤
     delta_of h s (max_cpu (found o)) - delta_of h s (min_cpu (found o))) ∧
  ((∀ c c', c ∈ online_cpus h → c' ∈ online_cpus h →
            delta_of h s c = delta_of h s c') →
   migrator_call o = None ∧ moved o = []).
Proof.
  intros Htick.
  assert (migrator_call o ≠ None →
          MIN_DELTA_IRQS_BASE ≤
            delta_of h s (max_cpu (found o)) - delta_of h s (min_cpu (found o)) ∧
          max_cpu (found o) ∈ online_cpus h ∧ min_cpu (found o) ∈ online_cpus h) as Hspread.
  { intros Hcall.
    destruct (called_facts h s o Htick Hcall)
      as (H2 & Hmx & Hmn & _ & Hdm & Hdn & Hcmp & _).
    rewrite <- Hdm, <- Hdn. split; [|done].
    pose proof (u32_range (delta_sum (found o))).
    assert (0 ≤ u32 (delta_sum (found o)) `div` num_online_cpus h)
      by (apply Z.div_pos; lia).
    lia. }
  split; [intros Hcall; by apply Hspread|].
  intros Heq.
  destruct (tick_cases h s o Htick) as [? | (_ & _ & _ & Hcall)]; [done|].
  destruct Hspread as (Hge & Hmx & Hmn); [by rewrite Hcall|].
  rewrite (Heq _ _ Hmx Hmn) in Hge. unfold MIN_DELTA_IRQS_BASE in Hge. lia.
Qed.

Lemma balanced_never_migrates_witness :
  ∃ o, exotic_balance_irq even_board (initial_state even_board) = Some o ∧
       migrator_call o = None ∧ moved o = [].
Proof.
  eexists. split; [vm_compute; reflexivity|].
  eapply (balanced_never_migrates even_board (initial_state even_board)).
  - vm_compute. reflexivity.
  - intros c c' [Hc _]%online_cpus_range [Hc' _]%online_cpus_range.
    assert (c = 0 ∨ c = 1) as [-> | ->] by (cbn in Hc; lia);
      assert (c' = 0 ∨ c' = 1) as [-> | ->] by (cbn in Hc'; lia);
      vm_compute; reflexivity.
Defined.

(** ** What the scan finds *)

Lemma first_min_unique (d : Z → Z) (l : list Z) (c c' : Z) :
  first_min d l c → first_min d l c' → c = c'.
Proof.
  intros (pre & post & Hl & Hpre & Hpost) (pre' & post' & Hl' & Hpre' & Hpost').
  rewrite Hl in Hl'. apply List.app_eq_app in Hl' as [k [[Hp Hq] | [Hp Hq]]].
  - destruct k as [|x k]; [by injection Hq|].
    injection Hq as Hx' Hq. subst x. rewrite Hp in Hpre.
    apply Forall_app in Hpre as [_ [Hx _]%Forall_cons].
    assert (c ∈ post') as Hin' by (rewrite Hq; apply elem_of_app; right; left).
    rewrite Forall_forall in Hpost'. pose proof (Hpost' _ Hin'). cbv beta in *. lia.
  - destruct k as [|x k]; [by injection Hq|].
    injection Hq as Hx' Hq. subst x. rewrite Hp in Hpre'.
    apply Forall_app in Hpre' as [_ [Hx _]%Forall_cons].
    assert (c' ∈ post) as Hin' by (rewrite Hq; apply elem_of_app; right; left).
    rewrite Forall_forall in Hpost. pose proof (Hpost _ Hin'). cbv beta in *. lia.
Qed.

Lemma first_max_unique (d : Z → Z) (l : list Z) (c c' : Z) :
  first_max d l c → first_max d l c' → c = c'.
Proof.
  intros (pre & post & Hl & Hpre & Hpost) (pre' & post' & Hl' & Hpre' & Hpost').
  apply (first_min_unique (λ x, - d x) l).
  - exists pre, post. split_and!; [done | |].
    + eapply Forall_impl; [exact Hpre|]. intros y Hy; cbv beta in *; lia.
    + eapply Forall_impl; [exact Hpost|]. intros y Hy; cbv beta in *; lia.
  - exists pre', post'. split_and!; [done | |].
    + eapply Forall_impl; [exact Hpre'|]. intros y Hy; cbv beta in *; lia.
    + eapply Forall_impl; [exact Hpost'|]. intros y Hy; cbv beta in *; lia.
Qed.

(** X7: on an executed tick [min_irq] and [max_irq] bound every online
    delta, so [max_irq - min_irq] does not wrap.  [min_cpu] is -1 only when
    every online delta is [UINT_MAX]; otherwise [min_irq] is the least
    delta and [min_cpu] the one and only first online CPU that has it.
    Likewise [max_cpu] is -1 only when every delta is zero, and otherwise
    the first online CPU of the greatest delta: ties keep the CPU found
    first. *)
Theorem scan_extremes (h : host) (s : state) (o : outcome) :
  exoticbalance_enabled s = true →
  exotic_balance_irq h s = Some o →
  Forall (λ c, min_irq (found o) ≤ delta_of h s c ≤ max_irq (found o)) (online_cpus h) ∧
  0 ≤ min_irq (found o) ≤ max_irq (found o) ∧ max_irq (found o) ≤ UINT_MAX ∧
  ((min_cpu (found o) = -1 ∧ Forall (λ c, delta_of h s c = UINT_MAX) (online_cpus h)) ∨
   (min_irq (found o) = delta_of h s (min_cpu (found o)) ∧
    ∀ c, first_min (delta_of h s) (online_cpus h) c ↔ c = min_cpu (found o))) ∧
  ((max_cpu (found o) = -1 ∧ Forall (λ c, delta_of h s c = 0) (online_cpus h)) ∨
   (max_irq (found o) = delta_of h s (max_cpu (found o)) ∧
    ∀ c, first_max (delta_of h s) (online_cpus h) c ↔ c = max_cpu (found o))).
Proof.
  intros Hon Htick. destruct (tick_enabled h s o Hon Htick) as [Hn ->].
  cbn [found]. clear Htick.
  pose proof (scan_online_max h s) as Hmax. pose proof (scan_online_min h s) as Hmin.
  cbv zeta in Hmax, Hmin.
  remember (scan_online h (fresh_count h s) (cpu_irq_last s)) as sc eqn:Hsc.
  assert (∀ c, 0 ≤ delta_of h s c ≤ UINT_MAX) as Hrng.
  { intros c. unfold delta_of, UINT_MAX.
    pose proof (u32_range (aget (fresh_count h s) c - aget (cpu_irq_last s) c)). lia. }
  assert (Forall (λ c, min_irq sc ≤ delta_of h s c ≤ max_irq sc) (online_cpus h)) as Hall.
  { apply Forall_forall. intros c Hc. split.
    - destruct Hmin as [(_ & -> & Hm) | (_ & -> & Hfn)].
      + rewrite Forall_forall in Hm. rewrite (Hm _ Hc). done.
      + apply first_min_elem in Hfn as [_ Hf]. rewrite Forall_forall in Hf. by apply Hf.
    - destruct Hmax as [(_ & -> & Hm) | (_ & -> & Hfm)].
      + rewrite Forall_forall in Hm. rewrite (Hm _ Hc). done.
      + apply first_max_elem in Hfm as [_ Hf]. rewrite Forall_forall in Hf. by apply Hf. }
  assert (∃ c, c ∈ online_cpus h) as [c0 Hc0].
  { unfold num_online_cpus in Hn. destruct (online_cpus h) as [|c l]; [cbn in Hn; lia|].
    exists c. left. }
  pose proof (proj1 (Forall_forall _ _) Hall c0 Hc0) as Hb. cbv beta in Hb.
  pose proof (Hrng c0).
  split_and!; [done | | lia | | |].
  - destruct Hmin as [(_ & -> & _) | (_ & -> & _)]; [unfold UINT_MAX; lia | apply Hrng].
  - destruct Hmax as [(_ & -> & _) | (_ & -> & _)]; [unfold UINT_MAX; lia | apply Hrng].
  - destruct Hmin as [(? & _ & ?) | (_ & ? & Hfn)]; [by left | right].
    split; [done|]. intros c. split; [|by intros ->].
    intros Hc. by apply (first_min_unique _ _ _ _ Hc).
  - destruct Hmax as [(? & _ & ?) | (_ & ? & Hfm)]; [by left | right].
    split; [done|]. intros c. split; [|by intros ->].
    intros Hc. by apply (first_max_unique _ _ _ _ Hc).
Qed.

Lemma scan_extremes_witness :
  Forall (λ c, min_irq (found demo_outcome) ≤ delta_of demo_host (initial_state demo_host) c
               ≤ max_irq (found demo_outcome)) (online_cpus demo_host) ∧
  0 ≤ min_irq (found demo_outcome) ≤ max_irq (found demo_outcome) ∧
  max_irq (found demo_outcome) ≤ UINT_MAX ∧
  ((min_cpu (found demo_outcome) = -1 ∧
    Forall (λ c, delta_of demo_host (initial_state demo_host) c = UINT_MAX)
           (online_cpus demo_host)) ∨
   (min_irq (found demo_outcome) =
      delta_of demo_host (initial_state demo_host) (min_cpu (found demo_outcome)) ∧
    ∀ c, first_min (delta_of demo_host (initial_state demo_host)) (online_cpus demo_host) c
         ↔ c = min_cpu (found demo_outcome))) ∧
  ((max_cpu (found demo_outcome) = -1 ∧
    Forall (λ c, delta_of demo_host (initial_state demo_host) c = 0)
           (online_cpus demo_host)) ∨
   (max_irq (found demo_outcome) =
      delta_of demo_host (initial_state demo_host) (max_cpu (found demo_outcome)) ∧
    ∀ c, first_max (delta_of demo_host (initial_state demo_host)) (online_cpus demo_host) c
         ↔ c = max_cpu (found demo_outcome))).
Proof.
  apply (scan_extremes demo_host (initial_state demo_host) demo_outcome).
  - reflexivity.
  - vm_compute. reflexivity.
Defined.

(** ** Deltas across ticks *)

Lemma u32_sub (a b : Z) : u32 (u32 a - u32 b) = u32 (a - b).
Proof. unfold u32. by rewrite <- Zminus_mod. Qed.

Lemma u32_sub_l (a b : Z) : u32 (u32 a - b) = u32 (a - b).
Proof. unfold u32. apply Zminus_mod_idemp_l. Qed.

Lemma u32_idemp (a : Z) : u32 (u32 a) = u32 a.
Proof. apply u32_small, u32_range. Qed.

Lemma u32_sumZ_fmap (f : Z → Z) (l : list Z) :
  u32 (sumZ ((λ c, u32 (f c)) <$> l)) = u32 (sumZ (f <$> l)).
Proof.
  induction l as [|x l IH]; [done|].
  rewrite !fmap_cons. cbn [sumZ foldr]. fold (sumZ ((λ c, u32 (f c)) <$> l)).
  fold (sumZ (f <$> l)).
  rewrite u32_add_l, <- u32_add_r, IH, u32_add_r. done.
Qed.

Lemma delta_of_online (h : host) (s : state) (c : Z) :
  c ∈ online_cpus h →
  delta_of h s c = u32 (line_total h (heavy_tick s) c - aget (cpu_irq_last s) c).
Proof.
  intros Hc. unfold delta_of. rewrite fresh_count_online by done. apply u32_sub_l.
Qed.

Lemma line_total_split (h : host) (c : Z) :
  line_total h true c = line_total h false c + protected_total h c.
Proof.
  unfold line_total, protected_total, counted.
  induction (seqZ 0 (nr_irqs h)) as [|i l IH]; [done|].
  rewrite !filter_cons. cbn [orb].
  rewrite (decide_True (P := Is_true true)) by done.
  rewrite fmap_cons. cbn [sumZ foldr]. fold sumZ.
  fold (sumZ ((λ irq, u32 (kstat_irqs_cpu h irq c)) <$> filter (λ irq, Is_true true) l)).
  cbn [orb] in IH. rewrite IH.
  destruct (is_irq_blacklisted h i); cbn [negb].
  - rewrite (decide_False (P := Is_true false)) by (by intros ?).
    rewrite (decide_True (P := Is_true true)) by done.
    rewrite fmap_cons. cbn [sumZ foldr]. unfold sumZ. lia.
  - rewrite (decide_True (P := Is_true true)) by done.
    rewrite (decide_False (P := Is_true false)) by (by intros ?).
    rewrite fmap_cons. cbn [sumZ foldr]. unfold sumZ. lia.
Qed.

(** X8: the delta an executed tick computes for an online CPU is what the
    counted lines have delivered to it, minus its last sample, modulo 2^32;
    a coarse tick counts the unprotected lines only, a fine tick all of them.
    The stored [delta_sum] is congruent to the sum of these differences. *)
Theorem delta_is_total_minus_last (h : host) (s : state) (o : outcome) :
  exoticbalance_enabled s = true →
  exotic_balance_irq h s = Some o →
  (∀ c, c ∈ online_cpus h →
        delta_of h s c = u32 (line_total h (heavy_tick s) c - aget (cpu_irq_last s) c) ∧
        line_total h (heavy_tick s) c =
          line_total h false c + (if heavy_tick s then protected_total h c else 0)) ∧
  u32 (delta_sum (found o)) =
    u32 (sumZ ((λ c, line_total h (heavy_tick s) c - aget (cpu_irq_last s) c)
               <$> online_cpus h)).
Proof.
  intros Hon Htick. destruct (tick_enabled h s o Hon Htick) as [_ ->]. cbn [found].
  split.
  - intros c Hc. split; [by apply delta_of_online|].
    destruct (heavy_tick s); [apply line_total_split | lia].
  - rewrite scan_online_delta_sum, u32_s32. unfold deltas.
    rewrite <- (u32_sumZ_fmap
      (λ c, line_total h (heavy_tick s) c - aget (cpu_irq_last s) c)).
    f_equal. f_equal. apply list_fmap_ext. intros i c Hc.
    apply delta_of_online. eapply list_elem_of_lookup_2. exact Hc.
Qed.

Lemma delta_is_total_minus_last_witness :
  (∀ c, c ∈ online_cpus demo_host →
        delta_of demo_host (initial_state demo_host) c =
          u32 (line_total demo_host false c - aget (cpu_irq_last (initial_state demo_host)) c) ∧
        line_total demo_host false c = line_total demo_host false c + 0) ∧
  u32 (delta_sum (found demo_outcome)) =
    u32 (sumZ ((λ c, line_total demo_host false c
                     - aget (cpu_irq_last (initial_state demo_host)) c)
               <$> online_cpus demo_host)).
Proof.
  apply (delta_is_total_minus_last demo_host (initial_state demo_host) demo_outcome).
  - reflexivity.
  - vm_compute. reflexivity.
Defined.

(** X9: for a CPU online at two consecutive executed ticks, the delta of
    the second tick is the second sample minus the first, modulo 2^32, each
    sample over the lines its own mode counts; for a CPU that was offline at
    the first tick it is taken against the last sample from before. *)
Theorem consecutive_ticks_delta (h1 h2 : host) (s : state) (o1 : outcome) (c : Z) :
  state_wf h1 s →
  exoticbalance_enabled s = true →
  exotic_balance_irq h1 s = Some o1 →
  0 ≤ c < nr_cpu_ids h1 →
  c ∈ online_cpus h2 →
  delta_of h2 (st o1) c =
  u32 (line_total h2 (negb (heavy_tick s)) c -
       (if decide (c ∈ online_cpus h1) then line_total h1 (heavy_tick s) c
        else aget (cpu_irq_last s) c)).
Proof.
  intros [_ Hl] Hon Htick Hr Hc2.
  rewrite delta_of_online by done.
  destruct (tick_enabled h1 s o1 Hon Htick) as [_ ->]. cbn [st heavy_tick cpu_irq_last].
  rewrite scan_online_last_get by lia.
  destruct (decide (c ∈ online_cpus h1)) as [Hc1|Hc1]; [|done].
  rewrite fresh_count_online by done.
  rewrite <- u32_sub, u32_idemp, u32_sub. done.
Qed.

Lemma consecutive_ticks_delta_witness :
  delta_of demo_host (st demo_outcome) 0 =
  u32 (line_total demo_host (negb (heavy_tick (initial_state demo_host))) 0 -
       (if decide (0 ∈ online_cpus demo_host)
        then line_total demo_host (heavy_tick (initial_state demo_host)) 0
        else aget (cpu_irq_last (initial_state demo_host)) 0)).
Proof.
  apply (consecutive_ticks_delta demo_host demo_host (initial_state demo_host) demo_outcome 0).
  - split; reflexivity.
  - reflexivity.
  - vm_compute. reflexivity.
  - vm_compute. split; [discriminate | reflexivity].
  - apply online_cpus_range. vm_compute. split; [split; [discriminate | reflexivity] | reflexivity].
Defined.

(** X10: when no counter moves between two consecutive executed ticks, the
    second tick still sees a delta at every online CPU: what the protected
    lines have delivered to it when the second tick is the fine one, and the
    negation of that, wrapped to 32 bits, when it is the coarse one. *)
Theorem alternation_delta (h : host) (s : state) (o1 : outcome) (c : Z) :
  state_wf h s →
  exoticbalance_enabled s = true →
  exotic_balance_irq h s = Some o1 →
  c ∈ online_cpus h →
  delta_of h (st o1) c =
  if heavy_tick s then u32 (- protected_total h c) else u32 (protected_total h c).
Proof.
  intros Hwf Hon Htick Hc.
  pose proof Hc as [Hr _]%online_cpus_range.
  destruct Hwf as [_ Hl].
  rewrite delta_of_online by done.
  destruct (tick_enabled h s o1 Hon Htick) as [_ ->]. cbn [st heavy_tick cpu_irq_last].
  rewrite scan_online_last_get, decide_True, fresh_count_online by (done || lia).
  rewrite <- u32_sub, u32_idemp, u32_sub.
  destruct (heavy_tick s); cbn [negb]; rewrite line_total_split; f_equal; lia.
Qed.

Lemma alternation_delta_witness :
  delta_of demo_host (st demo_outcome) 0 =
  if heavy_tick (initial_state demo_host)
  then u32 (- protected_total demo_host 0) else u32 (protected_total demo_host 0).
Proof.
  apply (alternation_delta demo_host (initial_state demo_host) demo_outcome 0).
  - split; reflexivity.
  - reflexivity.
  - vm_compute. reflexivity.
  - apply online_cpus_range. vm_compute. split; [split; [discriminate | reflexivity] | reflexivity].
Defined.

(** ** Loading and unloading *)

(** X11: [exoticbalance_init] returns 0 exactly when both allocations
    succeed, and [-ENOMEM] otherwise.  On success the two pointers name two
    different blocks of [nr_cpu_ids] zeros, every other block is untouched,
    and the first tick is scheduled after the short interval; on failure no
    work is scheduled, so no tick ever runs on a missing array. *)
Theorem init_outcome (h : host) (ok1 ok2 : bool) (k : kernel) :
  let '(rc, k') := exoticbalance_init h ok1 ok2 k in
  (rc = 0 ↔ ok1 = true ∧ ok2 = true) ∧
  (rc = 0 ∨ rc = - ENOMEM) ∧
  (rc ≠ 0 → work_pending k' = work_pending k) ∧
  (rc = 0 →
   work_pending k' = Some LIGHT_INTERVAL_MS ∧
   ∃ b1 b2, b1 ≠ b2 ∧ ptr_count k' = Some b1 ∧ ptr_last k' = Some b2 ∧
            kheap k' !! b1 = Some (replicate (Z.to_nat (nr_cpu_ids h)) 0) ∧
            kheap k' !! b2 = Some (replicate (Z.to_nat (nr_cpu_ids h)) 0) ∧
            ∀ b, b ≠ b1 → b ≠ b2 → kheap k' !! b = kheap k !! b).
Proof.
  destruct ok1, ok2; cbn; unfold ENOMEM.
  - split_and!; [done | by left | done |]. intros _. split; [done|].
    exists (knext k), (S (knext k)).
    split; [lia|]. split; [done|]. split; [done|].
    split; [rewrite lookup_insert_ne by lia; apply lookup_insert_eq|].
    split; [apply lookup_insert_eq|].
    intros b Hb1 Hb2. by rewrite !lookup_insert_ne.
  - split_and!; [split; [done | by intros [_ ?]] | by right | done | done].
  - split_and!; [split; [done | by intros [? _]] | by right | done | done].
  - split_and!; [split; [done | by intros [? _]] | by right | done | done].
Qed.

(** X12: unloading after a successful load gives back exactly what was
    allocated: on a kernel whose allocator hands out unused block names, the
    heap after [exoticbalance_exit] is the heap from before
    [exoticbalance_init], and no work is pending. *)
Theorem init_exit_round_trip (h : host) (k : kernel) :
  (∀ b, (knext k ≤ b)%nat → kheap k !! b = None) →
  let k' := exoticbalance_exit (exoticbalance_init h true true k).2 in
  kheap k' = kheap k ∧ work_pending k' = None.
Proof.
  intros Hfresh. cbn. split; [|done].
  apply map_eq. intros b.
  destruct (decide (b = S (knext k))) as [->|Hb2].
  { rewrite lookup_delete_eq. symmetry. apply Hfresh. lia. }
  rewrite lookup_delete_ne by done.
  destruct (decide (b = knext k)) as [->|Hb1].
  { rewrite lookup_delete_eq. symmetry. apply Hfresh. lia. }
  rewrite lookup_delete_ne by done. by rewrite !lookup_insert_ne.
Qed.

Lemma init_exit_round_trip_witness :
  let k' := exoticbalance_exit (exoticbalance_init demo_host true true boot_kernel).2 in
  kheap k' = kheap boot_kernel ∧ work_pending k' = None.
Proof.
  apply (init_exit_round_trip demo_host boot_kernel).
  intros b _. apply lookup_empty.
Defined.

(** ** Shape of protected names *)

Lemma append_assoc (a b c : string) : (a +:+ b) +:+ c = a +:+ b +:+ c.
Proof.
  induction a as [|x a IH]; [done|].
  change (String x ((a +:+ b) +:+ c) = String x (a +:+ b +:+ c)). by rewrite IH.
Qed.

Lemma occurs_in_extend (frag nm pre post : string) :
  occurs_in frag nm → occurs_in frag (pre +:+ nm +:+ post).
Proof.
  intros (p & q & ->). exists (pre +:+ p), (q +:+ post).
  by rewrite !append_assoc.
Qed.

Lemma has_lower_append (a b : string) :
  has_lower (a +:+ b) = has_lower a || has_lower b.
Proof.
  induction a as [|x a IH]; [done|].
  change (is_lower x || has_lower (a +:+ b) = is_lower x || has_lower a || has_lower b).
  rewrite IH. by destruct (is_lower x).
Qed.

Lemma occurs_in_has_lower (frag nm : string) :
  occurs_in frag nm → has_lower frag = true → has_lower nm = true.
Proof.
  intros (p & q & ->) Hf. rewrite !has_lower_append, Hf.
  by destruct (has_lower p).
Qed.

Lemma blacklist_entries_shape :
  Forall (λ frag, (3 ≤ strlen frag)%nat ∧ has_lower frag = true) irq_name_blacklist.
Proof.
  assert (forallb (λ frag, (3 <=? strlen frag)%nat && has_lower frag)
                  irq_name_blacklist = true) as Hall by reflexivity.
  rewrite forallb_forall in Hall. apply Forall_forall. intros frag Hin.
  apply list_elem_of_In, Hall, andb_prop in Hin as [Hlen Hlow].
  by apply Nat.leb_le in Hlen.
Qed.

(** X13: a protected line has a handler name of at least three characters
    that contains a lower-case letter: short names and names written without
    lower-case letters are never protected, the match being case-sensitive. *)
Theorem protected_name_shape (h : host) (irq : Z) :
  is_irq_blacklisted h irq = true →
  ∃ nm, handler_name h irq = Some nm ∧ (3 ≤ strlen nm)%nat ∧ has_lower nm = true.
Proof.
  intros (nm & frag & Hnm & Hfrag & Hocc)%is_irq_blacklisted_occurs.
  exists nm. split; [done|].
  pose proof blacklist_entries_shape as Hshape. rewrite Forall_forall in Hshape.
  destruct (Hshape _ Hfrag) as [Hlen Hlow]. split.
  - apply occurs_in_strlen in Hocc. lia.
  - by apply (occurs_in_has_lower frag).
Qed.

Lemma protected_name_shape_witness :
  ∃ nm, handler_name demo_host 1 = Some nm ∧ (3 ≤ strlen nm)%nat ∧ has_lower nm = true.
Proof.
  apply (protected_name_shape demo_host 1). reflexivity.
Defined.

(** X14: protection is kept under extension of the name: when a name is
    matched by the table, so is every name that contains it. *)
Theorem protection_extends (nm pre post : string) (table : list string) :
  blacklist_scan nm table = true →
  blacklist_scan (pre +:+ nm +:+ post) table = true.
Proof.
  rewrite !blacklist_scan_occurs. intros (frag & Hin & Hocc).
  exists frag. split; [done|]. by apply occurs_in_extend.
Qed.

Lemma protection_extends_witness :
  blacklist_scan ("arch_" +:+ "timer" +:+ "_ppi") irq_name_blacklist = true.
Proof.
  apply (protection_extends "timer" "arch_" "_ppi" irq_name_blacklist). reflexivity.
Defined.

(** X15: the [strlen] comparison in front of [strnstr] never decides: a
    fragment that [strnstr] finds in the name is not longer than the name,
    and the loop gives the same verdict as the search alone. *)
Theorem length_test_redundant (nm : string) (table : list string) :
  (∀ frag, is_Some (strnstr nm frag (strlen nm)) → (strlen frag ≤ strlen nm)%nat) ∧
  blacklist_scan nm table =
    bool_decide (Exists (λ frag, is_Some (strnstr nm frag (strlen nm))) table).
Proof.
  assert (∀ frag, is_Some (strnstr nm frag (strlen nm)) → (strlen frag ≤ strlen nm)%nat)
    as Hlen by (intros frag Hs; by apply occurs_in_strlen, strnstr_occurs).
  split; [done|].
  induction table as [|frag rest IH]; cbn [blacklist_scan].
  - symmetry. apply bool_decide_eq_false. by intros ?%Exists_nil.
  - destruct (bool_decide (is_Some (strnstr nm frag (strlen nm)))) eqn:Hs.
    + apply bool_decide_eq_true in Hs.
      rewrite (proj2 (Nat.leb_le _ _) (Hlen _ Hs)). cbn.
      symmetry. apply bool_decide_eq_true. by apply Exists_cons_hd.
    + rewrite andb_false_r, IH. apply bool_decide_eq_false in Hs.
      apply bool_decide_ext. rewrite Exists_cons. tauto.
Qed.

(** ** A platform without idle query *)

Lemma tick_delay (h : host) (s : state) (o : outcome) :
  exotic_balance_irq h s = Some o →
  delay_ms o = schedule_next h (max_cpu (found o)).
Proof.
  intros Htick. destruct (exoticbalance_enabled s) eqn:Hon.
  - by destruct (tick_enabled h s o Hon Htick) as [_ ->].
  - unfold exotic_balance_irq in Htick. rewrite Hon in Htick.
    by injection Htick as <-.
Qed.

(** X16: where [cpuidle_cpu_in_idle] is not defined, every tick, skipped
    or not, schedules the next one after the short interval, and the
    migrator moves the first lines, up to the cap, whose affinity can be set
    and that are not protected, whatever the destination. *)
Theorem without_idle_query (h : host) :
  cpuidle_cpu_in_idle h = None →
  (∀ s o, exotic_balance_irq h s = Some o → delay_ms o = LIGHT_INTERVAL_MS) ∧
  (∀ from to mig,
     affinity_sets (migrate_irqs_limited h from to mig) =
     (λ i, (i, to)) <$>
       take (Z.to_nat (MAX_IRQ_MIGRATE_PER_TICK - mig))
            (filter (λ i, Is_true (irq_can_set_affinity h i && negb (is_irq_blacklisted h i)))
                    (seqZ 0 (nr_irqs h)))).
Proof.
  intros Hnone.
  assert (∀ c, cpu_is_idle_wrap h c = false) as Hidle
    by (intros c; unfold cpu_is_idle_wrap; by rewrite Hnone).
  split.
  - intros s o Htick. rewrite (tick_delay h s o Htick).
    unfold schedule_next. by rewrite Hidle.
  - intros from to mig. unfold migrate_irqs_limited.
    rewrite migrate_loop_first_fit, seqZ_to_nat. do 2 f_equal.
    apply list_filter_iff. intros i. unfold eligible. rewrite Hidle.
    by rewrite andb_true_r.
Qed.

Lemma without_idle_query_witness :
  (∀ s o, exotic_balance_irq demo_host s = Some o → delay_ms o = LIGHT_INTERVAL_MS) ∧
  (∀ from to mig,
     affinity_sets (migrate_irqs_limited demo_host from to mig) =
     (λ i, (i, to)) <$>
       take (Z.to_nat (MAX_IRQ_MIGRATE_PER_TICK - mig))
            (filter (λ i, Is_true (irq_can_set_affinity demo_host i
                                   && negb (is_irq_blacklisted demo_host i)))
                    (seqZ 0 (nr_irqs demo_host)))).
Proof.
  apply (without_idle_query demo_host). reflexivity.
Defined.

(** ** Runs of ticks *)

Lemma executed_cons (h : host) (en : bool) (evs : list (host * bool)) :
  executed ((h, en) :: evs) = if en then S (executed evs) else executed evs.
Proof.
  unfold executed. rewrite filter_cons. cbn.
  destruct en; [by rewrite decide_True | by rewrite decide_False by (by intros ?)].
Qed.

(** X17: over any run of ticks on hosts with the same [nr_cpu_ids] and an
    online CPU at each executed tick, the work item keeps running, both
    arrays keep their [nr_cpu_ids] entries, the enable flag is the one last
    written, and the sampling mode has flipped once per executed tick: it
    is the original one exactly after an even number of executed ticks. *)
Theorem run_keeps_shape (n : Z) (evs : list (host * bool)) (s : state) :
  Forall (λ e, nr_cpu_ids e.1 = n ∧ (e.2 = true → 0 < num_online_cpus e.1)) evs →
  length (cpu_irq_count s) = Z.to_nat n →
  length (cpu_irq_last s) = Z.to_nat n →
  ∃ s', run_ticks evs s = Some s' ∧
        length (cpu_irq_count s') = Z.to_nat n ∧
        length (cpu_irq_last s') = Z.to_nat n ∧
        heavy_tick s' = (if Nat.even (executed evs) then heavy_tick s
                         else negb (heavy_tick s)) ∧
        exoticbalance_enabled s' = default (exoticbalance_enabled s) (snd <$> last evs).
Proof.
  revert s. induction evs as [|[h en] evs IH]; intros s Hall Hc Hl.
  - exists s. by cbn.
  - apply Forall_cons in Hall as [[Hn Hcpu] Hall]. cbn in Hn, Hcpu.
    cbn [run_ticks]. rewrite executed_cons.
    assert (∀ s1, exoticbalance_enabled s1 = en →
                  default (exoticbalance_enabled s1) (snd <$> last evs) =
                  default (exoticbalance_enabled s) (snd <$> last ((h, en) :: evs))) as Hlast.
    { intros s1 Hs1. destruct evs as [|e evs']; [exact Hs1|].
      rewrite last_cons_cons.
      destruct (last (e :: evs')) as [e'|] eqn:Hlast; [done|].
      by apply last_None in Hlast. }
    destruct en.
    + destruct (tick_runs h (set_enabled true s) eq_refl (Hcpu eq_refl)) as [o Htick].
      rewrite Htick.
      destruct (tick_enabled h (set_enabled true s) o eq_refl Htick) as [_ Ho].
      destruct (IH (st o) Hall) as (s' & Hrun & Hc' & Hl' & Hmode & Hen).
      * rewrite Ho. cbn [st cpu_irq_count].
        rewrite fresh_count_length_wf; [by rewrite Hn | by split; cbn; rewrite Hn].
      * rewrite Ho. cbn [st cpu_irq_last]. by rewrite scan_online_last_length.
      * exists s'. split_and!; try done.
        -- rewrite Hmode, Ho. cbn [st heavy_tick set_enabled].
           rewrite Nat.even_succ, <- Nat.negb_even.
           destruct (Nat.even (executed evs)), (heavy_tick s); done.
        -- rewrite Hen. apply Hlast. by rewrite Ho.
    + cbn. destruct (IH (set_enabled false s) Hall Hc Hl)
        as (s' & Hrun & Hc' & Hl' & Hmode & Hen).
      exists s'. split_and!; try done. rewrite Hen. by apply Hlast.
Qed.

Lemma run_keeps_shape_witness :
  ∃ s', run_ticks [(demo_host, true); (unplug_cpu1 demo_host, false); (demo_host, true)]
                  (initial_state demo_host) = Some s' ∧
        length (cpu_irq_count s') = Z.to_nat 2 ∧
        length (cpu_irq_last s') = Z.to_nat 2 ∧
        heavy_tick s' = heavy_tick (initial_state demo_host) ∧
        exoticbalance_enabled s' = true.
Proof.
  apply (run_keeps_shape 2
           [(demo_host, true); (unplug_cpu1 demo_host, false); (demo_host, true)]
           (initial_state demo_host)).
  - repeat (apply Forall_cons; split; [split; [reflexivity | intros _; vm_compute; reflexivity]|]).
    apply Forall_nil_2.
  - reflexivity.
  - reflexivity.
Defined.
